(** * Voice assistant: turn dispatcher (pages/api/chat.ts) and turn
    controller (the Home page component)

    A shallow embedding of the two source files of the repository.

    - [Js] holds the few JavaScript string and array primitives the code
      uses ([toLowerCase], [split(' ')], [slice], [join(' ')], [includes]).
      Strings are modelled as [string] over 8-bit characters; [toLowerCase]
      acts on the letters A-Z, which is [String.prototype.toLowerCase] on
      text of ASCII characters ([isAscii]); a statement that depends on
      how a message outside the keywords is lowered carries that
      condition.
    - [Dispatcher] is the server handler [POST] with [requestSchema],
      [getModelResponse] and [createAudio].  The handler runs in a small
      monad that threads the list of observable effects (console output,
      collaborator calls, writes to [res]) and a possibly thrown error.
      The three LLM clients and the speech client are collaborators: the
      handler is defined over two functions that say what each call returns.
    - [Controller] is the React component: its state hooks, its two refs,
      the recognizer/timer/fetch/audio objects its callbacks live on, and
      one transition per callback of the source.  Rendering and the
      unmount cleanup of [useEffect] are left out.
    - [SpecReading] holds the one notion taken from the specification's
      words rather than from the code, whitespace-separated tokens.
    - [Page] names what the properties speak about across the two files,
      and [Endpoint] puts the handler under the framework that answers the
      client when the handler rejects.

    The properties follow the definitions; each claim of the specification
    is settled by the theorem whose comment names it. *)

From Stdlib Require Import ZArith Ascii String.
From stdpp Require Import gmap strings list fin_maps.

Local Open Scope string_scope.
Set Warnings "-register-all".
Local Set Default Proof Using "Type".

(** ** JavaScript primitives *)
Module Js.

Definition lowerChar (c : ascii) : ascii :=
  let n := Ascii.N_of_ascii c in
  if ((65 <=? n) && (n <=? 90))%N then Ascii.ascii_of_N (n + 32) else c.

Definition upperChar (c : ascii) : ascii :=
  let n := Ascii.N_of_ascii c in
  if ((97 <=? n) && (n <=? 122))%N then Ascii.ascii_of_N (n - 32) else c.

(** [s.toLowerCase()], on the letters A-Z.  JavaScript lowers every cased
    letter; the two agree on the strings of [isAscii] below. *)
Fixpoint toLowerCase (s : string) : string :=
  match s with
  | EmptyString => EmptyString
  | String c r => String (lowerChar c) (toLowerCase r)
  end.

(** Every character of [s] is an ASCII character (below 128). *)
Fixpoint isAscii (s : string) : bool :=
  match s with
  | EmptyString => true
  | String c r => (Ascii.N_of_ascii c <? 128)%N && isAscii r
  end.

(** [s.split(' ')]: one token per space-delimited segment, empty segments
    included; the result is never the empty array. *)
Fixpoint split (s : string) : list string :=
  match s with
  | EmptyString => [EmptyString]
  | String c r =>
      if Ascii.eqb c " "%char then EmptyString :: split r
      else match split r with
           | t :: ts => String c t :: ts
           | [] => [String c EmptyString]
           end
  end.

(** [a.join(' ')] *)
Fixpoint join (a : list string) : string :=
  match a with
  | [] => EmptyString
  | [t] => t
  | t :: ts => t +:+ " " +:+ join ts
  end.

(** [a.slice(0, n)] and [a.slice(n)] on arrays *)
Definition slice_to {A} (n : nat) (a : list A) : list A := take n a.
Definition slice_from {A} (n : nat) (a : list A) : list A := drop n a.

Fixpoint startsWith (s k : string) : bool :=
  match k, s with
  | EmptyString, _ => true
  | String _ _, EmptyString => false
  | String a k', String b s' => Ascii.eqb a b && startsWith s' k'
  end.

(** [s.includes(k)] *)
Fixpoint includes (s k : string) : bool :=
  startsWith s k ||
  match s with
  | EmptyString => false
  | String _ s' => includes s' k
  end.

(** [s.charAt(0).toUpperCase() + s.slice(1)] *)
Definition capitalize (s : string) : string :=
  match s with
  | EmptyString => EmptyString
  | String c r => String (upperChar c) r
  end.

(** [xs.find(p)] *)
Definition find {A} (p : A -> bool) (xs : list A) : option A := List.find p xs.

(** Truthiness of a string: only the empty string is falsy. *)
Definition truthy (s : string) : bool :=
  match s with EmptyString => false | _ => true end.

(** JSON values, as [req.body] and [response.json()] deliver them.  An
    object is its list of own properties, each key once; numbers are kept
    as integers, no code path reads one. *)
Inductive json : Type :=
| JNull
| JBool (b : bool)
| JNum (n : Z)
| JStr (s : string)
| JArr (items : list json)
| JObj (fields : list (string * json)).

Fixpoint assoc (k : string) (fields : list (string * json)) : option json :=
  match fields with
  | [] => None
  | (k', v) :: rest => if String.eqb k k' then Some v else assoc k rest
  end.

(** [o[k]] for a value that went through the object check; [None] is
    [undefined]. *)
Definition prop (k : string) (o : json) : option json :=
  match o with
  | JObj fields => assoc k fields
  | _ => None
  end.

End Js.

Import Js.

(** ** The turn dispatcher: pages/api/chat.ts *)
Module Dispatcher.

Inductive VoiceType := alloy | echo | fable | onyx | nova | shimmer.

Record ResponseData := {
  data : string;
  contentType : string;
  model : string;
}.

(** What [res.json] serialises a [ResponseData] to. *)
Definition toJson (r : ResponseData) : json :=
  JObj [("data", JStr (data r)); ("contentType", JStr (contentType r));
        ("model", JStr (model r))].

(** What can be thrown: the schema's [ZodError], whatever a collaborator
    throws (network, status, malformed payload), and [new Error(message)]. *)
Inductive exn :=
| ZodError
| CollaboratorError
| Error (message : string).

(** A request to one of the three backends. *)
Inductive backendCall :=
| LangchainOpenAI_invoke (modelName : option string) (prompt : string)
| Ollama_invoke (ollamaModel : string) (prompt : string)
| axios_post (perplexityModel : string) (messages : list (string * string)).

(** What a run of the handler does to the outside, in order;
    [res_status_json] is [res.status(status).json(body)]. *)
Inductive effect :=
| console_log (message modelName : string)
| console_error (label : string) (e : exn)
| backend (c : backendCall)
| speech_create (voice : VoiceType) (input : string)
| res_status_json (status : Z) (body : json).

(** The handler monad: effects so far, then a thrown error or a value. *)
Definition M (A : Type) : Type := list effect -> list effect * (exn + A).

Definition ret {A} (a : A) : M A := fun tr => (tr, inr a).
Definition throw {A} (e : exn) : M A := fun tr => (tr, inl e).
Definition emit (ev : effect) : M unit := fun tr => ((tr ++ [ev])%list, inr tt).
Definition bind {A B} (m : M A) (k : A -> M B) : M B :=
  fun tr => match m tr with
            | (tr', inl e) => (tr', inl e)
            | (tr', inr a) => k a tr'
            end.
Definition try_catch {A} (m : M A) (h : exn -> M A) : M A :=
  fun tr => match m tr with
            | (tr', inl e) => h e tr'
            | r => r
            end.
(** The outcome of an awaited collaborator call. *)
Definition lift {A} (r : option A) : M A :=
  match r with Some a => ret a | None => throw CollaboratorError end.

Notation "'let*' x ':=' m 'in' k" := (bind m (fun x => k))
  (at level 10, x name, m at level 100, k at level 200).

(** [requestSchema.parse]: [message] is [z.string()], [model] is
    [z.string().default("gpt")]; other keys are dropped. *)
Definition requestSchema_parse (body : json) : exn + (string * string) :=
  match body with
  | JObj fields =>
      match assoc "message" fields with
      | Some (JStr message) =>
          match assoc "model" fields with
          | None => inr (message, "gpt")
          | Some (JStr m) => inr (message, m)
          | Some _ => inl ZodError
          end
      | _ => inl ZodError
      end
  | _ => inl ZodError
  end.

(** The fixed instruction the prompt starts with, its trailing space
    included. *)
Definition SYSTEM_PREFIX : string :=
  "Be precise and concise, never respond in more than 1-2 sentences! ".

(** The template literal of line 103. *)
Definition buildPrompt (message : string) : string :=
  SYSTEM_PREFIX +:+ join (slice_from 1 (split (toLowerCase message))).

(** The lookup table of the aggregator branch, read under its four case
    labels. *)
Definition perplexityModel (modelName : string) : string :=
  if String.eqb modelName "mixture" then "mixtral-8x7b-instruct"
  else if String.eqb modelName "mistral" then "mistral-7b-instruct"
  else if String.eqb modelName "perplexity" then "pplx-70b-online"
  else "llama-2-70b-chat".

(** The [switch] of [getModelResponse]: which backend request a model name
    leads to, [None] for the [default] branch. *)
Definition route (modelName prompt : string) : option backendCall :=
  if String.eqb modelName "gpt" || String.eqb modelName "gpt4" then
    Some (LangchainOpenAI_invoke
            (if String.eqb modelName "gpt4" then Some "gpt-4" else None) prompt)
  else if String.eqb modelName "local mistral"
          || String.eqb modelName "local llama" then
    Some (Ollama_invoke
            (if String.eqb modelName "local mistral" then "mistral" else "llama2")
            prompt)
  else if String.eqb modelName "mixture" || String.eqb modelName "mistral"
          || String.eqb modelName "perplexity" || String.eqb modelName "llama" then
    Some (axios_post (perplexityModel modelName)
            [("system", "Be precise and concise."); ("user", prompt)])
  else None.

(** The case labels of the [switch] in [getModelResponse]. *)
Definition supportedModels : list string :=
  ["gpt"; "gpt4"; "local mistral"; "local llama";
   "mixture"; "mistral"; "perplexity"; "llama"].

(** The prompt a backend request carries. *)
Definition promptOf (c : backendCall) : string :=
  match c with
  | LangchainOpenAI_invoke _ prompt => prompt
  | Ollama_invoke _ prompt => prompt
  | axios_post _ messages => default "" (snd <$> last messages)
  end.

(** [introMessage] and [voice] of [POST]. *)
Definition introMessage (modelName : string) : string :=
  capitalize modelName +:+ " here, ".

Definition voice (modelName : string) : VoiceType :=
  if includes modelName "local" then fable else echo.

(** The error every failure of [POST] is rethrown as. *)
Definition GENERIC : exn := Error "Failed to process request".

Section Handler.

(** The collaborators: what each backend request and each speech request
    returns ([None]: the call fails). *)
Variable send : backendCall -> option string.
Variable tts : VoiceType -> string -> option string.

Definition createAudio (fullMessage : string) (voice : VoiceType) : M string :=
  try_catch
    (let* _ := emit (speech_create voice fullMessage) in
     lift (tts voice fullMessage))
    (fun error =>
       let* _ := emit (console_error "Error creating audio:" error) in
       throw (Error "Failed to create audio")).

Definition getModelResponse (modelName prompt : string) : M string :=
  match route modelName prompt with
  | Some c => let* _ := emit (backend c) in lift (send c)
  | None => throw (Error ("Unsupported model: " +:+ modelName))
  end.

Definition POST (body : json) : M unit :=
  try_catch
    (match requestSchema_parse body with
     | inl e => throw e
     | inr (message, modelName) =>
         let* _ := emit (console_log message modelName) in
         let prompt := buildPrompt message in
         let* gptMessage := getModelResponse modelName prompt in
         let fullMessage := introMessage modelName +:+ gptMessage in
         let* base64Audio := createAudio fullMessage (voice modelName) in
         let Result := {| data := base64Audio;
                          contentType := "audio/mp3";
                          model := modelName |} in
         emit (res_status_json 200 (toJson Result))
     end)
    (fun error =>
       let* _ := emit (console_error "Error processing request:" error) in
       throw GENERIC).

(** One invocation of the handler on a fresh response object. *)
Definition handle (body : json) : list effect * (exn + unit) := POST body [].

(** The ways a turn can fail, as the claim lists them. *)
Inductive fails (body : json) : Prop :=
| fails_validation e :
    requestSchema_parse body = inl e -> fails body
| fails_unsupported message modelName :
    requestSchema_parse body = inr (message, modelName) ->
    route modelName (buildPrompt message) = None -> fails body
| fails_backend message modelName c :
    requestSchema_parse body = inr (message, modelName) ->
    route modelName (buildPrompt message) = Some c ->
    send c = None -> fails body
| fails_synthesis message modelName c gptMessage :
    requestSchema_parse body = inr (message, modelName) ->
    route modelName (buildPrompt message) = Some c ->
    send c = Some gptMessage ->
    tts (voice modelName) (introMessage modelName +:+ gptMessage) = None ->
    fails body.

End Handler.

(** Collaborators for worked examples: ones that always answer, and ones
    that never do. *)
Definition answering_send (c : backendCall) : option string :=
  Some "Entropy measures disorder.".
Definition answering_tts (v : VoiceType) (input : string) : option string :=
  Some "SUQzBAAAAAAA".
Definition failing_send (c : backendCall) : option string := None.
Definition failing_tts (v : VoiceType) (input : string) : option string := None.

End Dispatcher.

(** ** The turn controller: the Home page component

    JavaScript runs one callback at a time, to completion: an [event] below
    is one callback run, and [step] is what it does to the component's
    state and to the objects it holds.  The click handlers are those of the
    latest render, so they read the current state; the recognizer, timer,
    fetch and audio callbacks are closures of the render that created them,
    which matters for the one state variable they read, [model]. *)
Module Controller.

(** [modelKeywords] of the silence-timer callback, in its order. *)
Definition modelKeywords : list string :=
  ["gpt4"; "gpt"; "perplexity"; "local mistral"; "local llama";
   "mixture"; "mistral"; "llama"].

(** The text the keywords are searched in:
    [words.slice(0, 3).join(" ").toLowerCase()]. *)
Definition head3 (interimTranscript : string) : string :=
  let words := split interimTranscript in
  toLowerCase (join (slice_to 3 words)).

(** [detectedModel] of the silence-timer callback; [None] is [undefined]. *)
Definition detectModel (interimTranscript : string) : option string :=
  find (fun keyword => includes (head3 interimTranscript) keyword) modelKeywords.

(** The parsed form of [JSON.stringify({ message, model: modelKeyword })]:
    an [undefined] model leaves no key. *)
Definition requestBody (message : string) (modelKeyword : option string) : json :=
  JObj (("message", JStr message) ::
        match modelKeyword with
        | Some m => [("model", JStr m)]
        | None => []
        end).

(** The models of the eight bubbles the page renders. *)
Definition bubbles : list string :=
  ["gpt"; "gpt4"; "perplexity"; "local mistral"; "local llama";
   "mixture"; "mistral"; "llama"].

(** *** Objects the callbacks live on

    Each callback is a closure of the render that created it; the only
    state variable such a closure reads later is [model], so every object
    records the [model] its closure captured. *)

(** A recognizer after [start()]: listening, told to [stop()] (it may
    still deliver a result before it ends), or past its [end] event. *)
Inductive recStatus := started | stopping | ended.

(** A [webkitSpeechRecognition] object with the handlers [startRecording]
    puts on it. *)
Record recognizer := {
  status : recStatus;
  rec_model : string;
}.

(** A pending [setTimeout] callback with its [interimTranscript]. *)
Record timeout := {
  interimTranscript : string;
  timeout_model : string;
}.

(** A [fetch] in flight. *)
Record request := {
  body : json;
  request_model : string;
}.

(** The reply body as [response.json()] gives it, read through the three
    properties the code looks at, each a string as the dispatcher writes
    them; [None] is an absent property. *)
Record payload := {
  p_data : option string;
  p_contentType : option string;
  p_model : option string;
}.

(** An [Audio] element that is playing, with the [data] of its reply. *)
Record audio := {
  reply : payload;
  audio_model : string;
}.

(** How a [fetch] settles: it rejects, or it resolves with a status and a
    body ([None]: [response.json()] rejects or yields [null]). *)
Inductive fetchOutcome :=
| rejected
| responded (http_status : Z) (json_body : option payload).

(** [response.ok] *)
Definition response_ok (http_status : Z) : bool :=
  ((200 <=? http_status) && (http_status <=? 299))%Z.

(** The component: the five [useState] values, the two refs, and the
    objects alive outside React, each under the id it was created with. *)
Record state := {
  isRecording : bool;
  isPlaying : bool;
  transcript : string;
  model : string;
  response : string;
  recognitionRef : option nat;
  silenceTimerRef : option nat;
  recognizers : gmap nat recognizer;
  timeouts : gmap nat timeout;
  fetches : gmap nat request;
  audios : gmap nat audio;
  fresh : nat;
}.

(** The first render: the [useState] and [useRef] initial values.  Object
    ids start at 1, so that a timer handle is truthy as in a browser. *)
Definition init : state := {|
  isRecording := false; isPlaying := false;
  transcript := ""; model := ""; response := "";
  recognitionRef := None; silenceTimerRef := None;
  recognizers := ∅; timeouts := ∅; fetches := ∅; audios := ∅;
  fresh := 1;
|}.

Definition setIsRecording (b : bool) (s : state) : state :=
  {| isRecording := b; isPlaying := isPlaying s; transcript := transcript s;
     model := model s; response := response s;
     recognitionRef := recognitionRef s; silenceTimerRef := silenceTimerRef s;
     recognizers := recognizers s; timeouts := timeouts s;
     fetches := fetches s; audios := audios s; fresh := fresh s |}.

Definition setIsPlaying (b : bool) (s : state) : state :=
  {| isRecording := isRecording s; isPlaying := b; transcript := transcript s;
     model := model s; response := response s;
     recognitionRef := recognitionRef s; silenceTimerRef := silenceTimerRef s;
     recognizers := recognizers s; timeouts := timeouts s;
     fetches := fetches s; audios := audios s; fresh := fresh s |}.

Definition setTranscript (t : string) (s : state) : state :=
  {| isRecording := isRecording s; isPlaying := isPlaying s; transcript := t;
     model := model s; response := response s;
     recognitionRef := recognitionRef s; silenceTimerRef := silenceTimerRef s;
     recognizers := recognizers s; timeouts := timeouts s;
     fetches := fetches s; audios := audios s; fresh := fresh s |}.

Definition setModel (m : string) (s : state) : state :=
  {| isRecording := isRecording s; isPlaying := isPlaying s;
     transcript := transcript s; model := m; response := response s;
     recognitionRef := recognitionRef s; silenceTimerRef := silenceTimerRef s;
     recognizers := recognizers s; timeouts := timeouts s;
     fetches := fetches s; audios := audios s; fresh := fresh s |}.

Definition setResponse (r : string) (s : state) : state :=
  {| isRecording := isRecording s; isPlaying := isPlaying s;
     transcript := transcript s; model := model s; response := r;
     recognitionRef := recognitionRef s; silenceTimerRef := silenceTimerRef s;
     recognizers := recognizers s; timeouts := timeouts s;
     fetches := fetches s; audios := audios s; fresh := fresh s |}.

Definition with_recognizers (f : gmap nat recognizer -> gmap nat recognizer)
    (ref : option nat) (s : state) : state :=
  {| isRecording := isRecording s; isPlaying := isPlaying s;
     transcript := transcript s; model := model s; response := response s;
     recognitionRef := ref; silenceTimerRef := silenceTimerRef s;
     recognizers := f (recognizers s); timeouts := timeouts s;
     fetches := fetches s; audios := audios s; fresh := fresh s |}.

Definition with_timeouts (f : gmap nat timeout -> gmap nat timeout)
    (ref : option nat) (s : state) : state :=
  {| isRecording := isRecording s; isPlaying := isPlaying s;
     transcript := transcript s; model := model s; response := response s;
     recognitionRef := recognitionRef s; silenceTimerRef := ref;
     recognizers := recognizers s; timeouts := f (timeouts s);
     fetches := fetches s; audios := audios s; fresh := fresh s |}.

Definition with_fetches (f : gmap nat request -> gmap nat request)
    (s : state) : state :=
  {| isRecording := isRecording s; isPlaying := isPlaying s;
     transcript := transcript s; model := model s; response := response s;
     recognitionRef := recognitionRef s; silenceTimerRef := silenceTimerRef s;
     recognizers := recognizers s; timeouts := timeouts s;
     fetches := f (fetches s); audios := audios s; fresh := fresh s |}.

Definition with_audios (f : gmap nat audio -> gmap nat audio)
    (s : state) : state :=
  {| isRecording := isRecording s; isPlaying := isPlaying s;
     transcript := transcript s; model := model s; response := response s;
     recognitionRef := recognitionRef s; silenceTimerRef := silenceTimerRef s;
     recognizers := recognizers s; timeouts := timeouts s;
     fetches := fetches s; audios := f (audios s); fresh := fresh s |}.

(** A new object id. *)
Definition alloc (s : state) : nat * state :=
  (fresh s,
   {| isRecording := isRecording s; isPlaying := isPlaying s;
      transcript := transcript s; model := model s; response := response s;
      recognitionRef := recognitionRef s; silenceTimerRef := silenceTimerRef s;
      recognizers := recognizers s; timeouts := timeouts s;
      fetches := fetches s; audios := audios s; fresh := S (fresh s) |}).

(** *** The functions of the component *)

(** [recognition.stop()]: a running recognizer goes on to deliver its
    last result and its [end] event; on any other it does nothing. *)
Definition stop (r : recognizer) : recognizer :=
  match status r with
  | started => {| status := stopping; rec_model := rec_model r |}
  | _ => r
  end.

(** [if (recognitionRef.current) recognitionRef.current.stop()] *)
Definition stopRecording (s : state) : state :=
  match recognitionRef s with
  | Some r => with_recognizers (alter stop r) (recognitionRef s) s
  | None => s
  end.

(** [if (silenceTimerRef.current) clearTimeout(silenceTimerRef.current)];
    the ref keeps the stale handle. *)
Definition clearSilenceTimer (s : state) : state :=
  match silenceTimerRef s with
  | Some t => with_timeouts (delete t) (silenceTimerRef s) s
  | None => s
  end.

(** [startRecording], called from a closure whose [model] is [env]. *)
Definition startRecording (env : string) (s : state) : state :=
  let s := setIsRecording true s in
  let s := setTranscript "" s in
  let s := setResponse "" s in
  let '(r, s) := alloc s in
  with_recognizers
    (insert r {| status := started; rec_model := env |}) (Some r) s.

(** [sendToBackend] up to the [await fetch]: the model update, the stop of
    the current recognizer, then the request leaves. *)
Definition sendToBackend (env : string) (message : string)
    (modelKeyword : option string) (s : state) : state :=
  let s :=
    if match modelKeyword with Some k => truthy k | None => false end
    then setModel (default "" modelKeyword) s
    else if negb (truthy env) then setModel "gpt-3.5" s
    else s in
  let s := stopRecording s in
  let '(q, s) := alloc s in
  with_fetches
    (insert q {| body := requestBody message modelKeyword;
                 request_model := env |}) s.

(** [sendToBackend] after the [await]: the [fetch] of a closure with
    [model = env] has settled with [o].  Every [throw] inside the [try]
    lands in the [catch], which only logs. *)
Definition fetchSettled (env : string) (o : fetchOutcome) (s : state) : state :=
  match o with
  | rejected => s
  | responded http_status json_body =>
      if negb (response_ok http_status) then s
      else match json_body with
           | None => s
           | Some d =>
               if match p_data d with Some x => truthy x | None => false end
                  && bool_decide (p_contentType d = Some "audio/mp3")
               then
                 let s := setIsPlaying true s in
                 let '(a, s) := alloc s in
                 with_audios (insert a {| reply := d; audio_model := env |}) s
               else s
           end
  end.

(** [audio.onended] *)
Definition audioEnded (a : audio) (s : state) : state :=
  let s := setIsPlaying false s in
  let s := startRecording (audio_model a) s in
  match p_model (reply a) with
  | Some m => if truthy m then setModel m s else s
  | None => s
  end.

(** [handleResult] up to the [setTimeout]; [results] holds the transcript
    of the first alternative of each entry of [event.results]. *)
Definition handleResult (env : string) (resultIndex : nat)
    (results : list string) (s : state) : state :=
  let s := clearSilenceTimer s in
  let interim := foldl (fun acc t => acc +:+ t) "" (drop resultIndex results) in
  let s := setTranscript interim s in
  let '(t, s) := alloc s in
  with_timeouts
    (insert t {| interimTranscript := interim; timeout_model := env |})
    (Some t) s.

(** The callback given to [setTimeout] in [handleResult]. *)
Definition silenceElapsed (t : timeout) (s : state) : state :=
  let detectedModel := detectModel (interimTranscript t) in
  let s := setModel (default "gpt" detectedModel) s in
  let s := sendToBackend (timeout_model t) (interimTranscript t) detectedModel s in
  setTranscript "" s.

(** [recognitionRef.current.onend] *)
Definition recognitionEnded (s : state) : state :=
  clearSilenceTimer (setIsRecording false s).

(** [handleToggleRecording], in the latest render. *)
Definition handleToggleRecording (s : state) : state :=
  if negb (isRecording s) && negb (isPlaying s) then
    startRecording (model s) s
  else if isRecording s then
    sendToBackend (model s) (transcript s) None (stopRecording s)
  else s.

(** The [onClick] of a model bubble, in the latest render. *)
Definition bubbleClicked (m : string) (s : state) : state :=
  sendToBackend (model s) ("Use " +:+ m +:+ " model") (Some m) s.

(** *** Events

    What the user, the recognizer, the timer, the network and the audio
    element can make happen; each runs one callback to completion. *)
Inductive event :=
| click_toggle
| click_bubble (m : string)
| speech_result (r : nat) (resultIndex : nat) (results : list string)
| speech_end (r : nat)
| timer_fires (t : nat)
| fetch_settles (q : nat) (o : fetchOutcome)
| audio_ended (a : nat).

(** One event; [None] when the event cannot happen in [s] (no such bubble,
    a recognizer that is not running, a timer that is not pending, ...). *)
Definition step (e : event) (s : state) : option state :=
  match e with
  | click_toggle => Some (handleToggleRecording s)
  | click_bubble m =>
      if bool_decide (m ∈ bubbles) then Some (bubbleClicked m s) else None
  | speech_result r resultIndex results =>
      match recognizers s !! r with
      | Some rc =>
          match status rc with
          | ended => None
          | _ => Some (handleResult (rec_model rc) resultIndex results s)
          end
      | None => None
      end
  | speech_end r =>
      match recognizers s !! r with
      | Some rc =>
          match status rc with
          | ended => None
          | _ =>
              Some (recognitionEnded
                      (with_recognizers
                         (insert r {| status := ended; rec_model := rec_model rc |})
                         (recognitionRef s) s))
          end
      | None => None
      end
  | timer_fires t =>
      match timeouts s !! t with
      | Some cb =>
          Some (silenceElapsed cb
                  (with_timeouts (delete t) (silenceTimerRef s) s))
      | None => None
      end
  | fetch_settles q o =>
      match fetches s !! q with
      | Some rq =>
          Some (fetchSettled (request_model rq) o (with_fetches (delete q) s))
      | None => None
      end
  | audio_ended a =>
      match audios s !! a with
      | Some au => Some (audioEnded au (with_audios (delete a) s))
      | None => None
      end
  end.

(** A run: the events in order, from [s]. *)
Fixpoint run (evs : list event) (s : state) : option state :=
  match evs with
  | [] => Some s
  | e :: evs' =>
      match step e s with
      | Some s' => run evs' s'
      | None => None
      end
  end.

Definition reachable (s : state) : Prop := exists evs, run evs init = Some s.

(** *** Predicates on states and runs *)

(** At most one of the two flags is set. *)
Definition exclusive (s : state) : Prop :=
  isRecording s && isPlaying s = false.

(** The reply is one that [sendToBackend] plays: an ok status and a body
    with truthy [data] and [contentType] "audio/mp3". *)
Definition plays (o : fetchOutcome) : bool :=
  match o with
  | rejected => false
  | responded http_status json_body =>
      response_ok http_status &&
      match json_body with
      | None => false
      | Some d =>
          match p_data d with Some x => truthy x | None => false end
          && bool_decide (p_contentType d = Some "audio/mp3")
      end
  end.

(** The Sending phase fails: the [fetch] rejects, or the status is not ok. *)
Definition failed (o : fetchOutcome) : bool :=
  match o with
  | rejected => true
  | responded http_status _ => negb (response_ok http_status)
  end.

(** The event is not a playable reply that arrives while [isRecording]. *)
Definition quiet (e : event) (s : state) : bool :=
  match e with
  | fetch_settles _ o => negb (plays o && isRecording s)
  | _ => true
  end.

(** Every event of the run is [quiet] in the state it happens in. *)
Fixpoint quiet_run (evs : list event) (s : state) : bool :=
  match evs with
  | [] => true
  | e :: evs' =>
      quiet e s &&
      match step e s with
      | Some s' => quiet_run evs' s'
      | None => true
      end
  end.

(** Some recognizer has not delivered its [end] event yet. *)
Definition live (m : gmap nat recognizer) : Prop :=
  exists r rc, m !! r = Some rc /\ status rc <> ended.

(** Every pending timer is the one [silenceTimerRef] holds. *)
Definition timer_owned (s : state) : Prop :=
  forall t, is_Some (timeouts s !! t) -> silenceTimerRef s = Some t.

(** Idle: no transcription active and no audio playing - neither flag is
    set, no recognizer is still listening, no audio element is playing -
    and no silence timer pending. *)
Definition idle (s : state) : Prop :=
  isRecording s = false /\ isPlaying s = false /\
  ~ live (recognizers s) /\ audios s = ∅ /\ timeouts s = ∅.

(** The state a run from [init] ends in ([init] itself if some event of
    the run cannot happen). *)
Definition after (evs : list event) : state := default init (run evs init).

(** A reply as the dispatcher sends it on success. *)
Definition audio_reply : fetchOutcome :=
  responded 200 (Some {| p_data := Some "SUQzBAAAAAAA";
                         p_contentType := Some "audio/mp3";
                         p_model := Some "gpt" |}).

End Controller.

(** ** Tokens as the specification words them

    The specification speaks of "whitespace-separated tokens".  This is
    that reading, written from its words and used only to state two claims
    as they are written: a token is a maximal run of characters that are
    not whitespace.  The code itself cuts with [split(' ')], which is
    [Js.split]. *)
Module SpecReading.

Definition tab : string := String (Ascii.ascii_of_nat 9) EmptyString.

Definition isWhitespace (c : ascii) : bool :=
  let n := Ascii.N_of_ascii c in
  (n =? 32)%N || ((9 <=? n) && (n <=? 13))%N.

Fixpoint whitespaceTokens (s : string) : list string :=
  match s with
  | EmptyString => []
  | String c r =>
      if isWhitespace c then whitespaceTokens r
      else match r with
           | EmptyString => [String c EmptyString]
           | String c' _ =>
               if isWhitespace c' then String c EmptyString :: whitespaceTokens r
               else match whitespaceTokens r with
                    | t :: ts => String c t :: ts
                    | [] => [String c EmptyString]
                    end
           end
  end.

End SpecReading.

(** ** What the page shows, and how the two files meet

    [getModelClassName] is the one function of the component the callbacks
    do not cover.  The remaining definitions name things the properties at
    the end of the file speak about: kinds of effects of the handler, the
    reply of the dispatcher as the controller reads it, and two conditions
    on the controller's objects. *)
Module Page.

Import Controller.

(** [getModelClassName]: its parameter is named [model] too and hides the
    state variable, so the comparison is of the argument with itself. *)
Definition getModelClassName (model : string) (s : state) : string :=
  if String.eqb model model && isPlaying s then " prominent-pulse" else "".

(** What [response.json()] gives the controller for a [ResponseData] the
    dispatcher sent. *)
Definition replyOf (r : Dispatcher.ResponseData) : payload :=
  {| p_data := Some (Dispatcher.data r);
     p_contentType := Some (Dispatcher.contentType r);
     p_model := Some (Dispatcher.model r) |}.

Definition is_backend (ev : Dispatcher.effect) : bool :=
  match ev with Dispatcher.backend _ => true | _ => false end.
Definition is_speech (ev : Dispatcher.effect) : bool :=
  match ev with Dispatcher.speech_create _ _ => true | _ => false end.
Definition is_response (ev : Dispatcher.effect) : bool :=
  match ev with Dispatcher.res_status_json _ _ => true | _ => false end.

(** How many effects of a kind a run of the handler had. *)
Definition count (p : Dispatcher.effect -> bool) (tr : list Dispatcher.effect) : nat :=
  length (List.filter p tr).

(** The dispatcher takes the request: the schema accepts it and its model
    is one of the [switch]. *)
Definition acceptable (rq : request) : Prop :=
  exists message modelName,
    Dispatcher.requestSchema_parse (body rq) = inr (message, modelName) /\
    In modelName Dispatcher.supportedModels.

(** Every object id in use is below the next id to be given out. *)
Definition ids_below_fresh (s : state) : Prop :=
  (forall r, is_Some (recognizers s !! r) -> r < fresh s) /\
  (forall t, is_Some (timeouts s !! t) -> t < fresh s) /\
  (forall q, is_Some (fetches s !! q) -> q < fresh s) /\
  (forall a, is_Some (audios s !! a) -> a < fresh s).

End Page.

(** ** The endpoint: the handler under its framework

    [chat.ts] is a [pages/api] route: the framework calls the handler and
    answers the client itself when the handler rejects. *)
Module Endpoint.

Import Dispatcher.

(** What the client receives: a response the handler wrote with
    [res.status(..).json(..)], or the framework's answer to a rejection. *)
Inductive reply :=
| handler_reply (status : Z) (body : json)
| error_reply (status : Z) (text : string).

Definition reply_status (r : reply) : Z :=
  match r with
  | handler_reply status _ => status
  | error_reply status _ => status
  end.

(** Modelled from the spec: the answer of the framework to a handler that
    rejects, which is not code of [src/].  The specification has "non-2xx
    with an error body" and "a generic server error"; the API resolver of
    Next.js answers such a rejection with status 500 and the text
    "Internal Server Error". *)
Definition frameworkError : reply := error_reply 500 "Internal Server Error".

(** The responses the handler wrote, in order. *)
Definition written (tr : list effect) : list reply :=
  omap (fun ev => match ev with
                  | res_status_json status body => Some (handler_reply status body)
                  | _ => None
                  end) tr.

(** One request to the endpoint: what the handler wrote and, if it
    rejects without having written anything, the framework's answer. *)
Definition endpoint (send : backendCall -> option string)
    (tts : VoiceType -> string -> option string) (body : json) : list reply :=
  match handle send tts body with
  | (tr, inr _) => written tr
  | (tr, inl _) =>
      match written tr with
      | [] => [frameworkError]
      | rs => rs
      end
  end.

End Endpoint.

(** * Properties *)

(** ** Strings: [split], [join], [toLowerCase] *)
Section JsFacts.

Lemma split_nonempty s : split s <> [].
Proof.
  destruct s as [|c r]; simpl; [discriminate|].
  destruct (Ascii.eqb c " "); [discriminate|].
  destruct (split r); discriminate.
Qed.

Lemma join_cons_char c t ts : join (String c t :: ts) = String c (join (t :: ts)).
Proof. destruct ts; reflexivity. Qed.

Lemma join_cons t u us : join (t :: u :: us) = t +:+ " " +:+ join (u :: us).
Proof. reflexivity. Qed.

(** Joining the tokens gives the string back: [split] loses nothing. *)
Lemma join_split s : join (split s) = s.
Proof.
  induction s as [|c r IH]; [reflexivity|].
  cbn [split].
  destruct (Ascii.eqb_spec c " ") as [->|Hc].
  - destruct (split r) as [|u us] eqn:E; [now apply split_nonempty in E|].
    rewrite join_cons, IH. reflexivity.
  - destruct (split r) as [|u us] eqn:E; [now apply split_nonempty in E|].
    rewrite join_cons_char, IH. reflexivity.
Qed.

Lemma includes_space_cons c t :
  includes (String c t) " " = Ascii.eqb c " " || includes t " ".
Proof.
  cbn [includes startsWith].
  rewrite (Ascii.eqb_sym " " c). destruct t; cbn [startsWith]; now rewrite andb_true_r.
Qed.

(** No token holds a space. *)
Lemma split_no_space s : Forall (fun t => includes t " " = false) (split s).
Proof.
  induction s as [|c r IH]; cbn [split].
  - repeat constructor.
  - destruct (Ascii.eqb c " ") eqn:Hc.
    + constructor; [reflexivity | exact IH].
    + destruct (split r) as [|u us]; [repeat constructor; now rewrite includes_space_cons, Hc|].
      inversion IH as [|? ? Hu Hus]; subst.
      constructor; [|exact Hus].
      now rewrite includes_space_cons, Hc, Hu.
Qed.

Lemma lowerChar_space c : Ascii.eqb (lowerChar c) " " = Ascii.eqb c " ".
Proof.
  destruct c as [[] [] [] [] [] [] [] []]; reflexivity.
Qed.

Lemma toLowerCase_app s t : toLowerCase (s +:+ t) = toLowerCase s +:+ toLowerCase t.
Proof. induction s as [|c r IH]; simpl; [reflexivity | now rewrite IH]. Qed.

Lemma toLowerCase_split s : split (toLowerCase s) = map toLowerCase (split s).
Proof.
  induction s as [|c r IH]; [reflexivity|].
  cbn [toLowerCase split]. rewrite lowerChar_space, IH.
  destruct (Ascii.eqb c " "); [reflexivity|].
  destruct (split r); reflexivity.
Qed.

Lemma toLowerCase_join ts : toLowerCase (join ts) = join (map toLowerCase ts).
Proof.
  induction ts as [|t [|u us] IH]; [reflexivity..|].
  rewrite join_cons, !toLowerCase_app, IH. reflexivity.
Qed.

(** [find] returns the first element that passes the test. *)
Lemma find_first {A} (p : A -> bool) xs x :
  find p xs = Some x <->
  exists pre post, xs = (pre ++ x :: post)%list /\ p x = true /\
                   Forall (fun y => p y = false) pre.
Proof.
  unfold find. induction xs as [|y ys IH]; simpl.
  - split; [discriminate|]. intros (pre & post & E & _). destruct pre; discriminate.
  - destruct (p y) eqn:Hy.
    + split.
      * intros [= ->]. exists [], ys. auto.
      * intros (pre & post & E & Hx & Hpre).
        destruct pre as [|z pre]; simpl in E; injection E as -> ->; [reflexivity|].
        inversion Hpre; congruence.
    + rewrite IH. split.
      * intros (pre & post & -> & Hx & Hpre). exists (y :: pre), post. auto.
      * intros (pre & post & E & Hx & Hpre).
        destruct pre as [|z pre]; simpl in E; injection E as -> ->; [congruence|].
        inversion Hpre; subst. eauto.
Qed.

Lemma find_none {A} (p : A -> bool) xs :
  find p xs = None <-> Forall (fun y => p y = false) xs.
Proof.
  unfold find. induction xs as [|y ys IH]; simpl.
  - split; auto.
  - destruct (p y) eqn:Hy.
    + split; [discriminate|]. inversion 1; congruence.
    + rewrite IH. split; [auto|]. now inversion 1.
Qed.

End JsFacts.

(** ** The dispatcher *)
Section DispatcherFacts.

Import Dispatcher.

Variable send : backendCall -> option string.
Variable tts : VoiceType -> string -> option string.

(** What one invocation does, branch by branch. *)
Lemma handle_unfold body :
  handle send tts body =
  match requestSchema_parse body with
  | inl e => ([console_error "Error processing request:" e], inl GENERIC)
  | inr (message, modelName) =>
      match route modelName (buildPrompt message) with
      | None =>
          ([console_log message modelName;
            console_error "Error processing request:"
              (Error ("Unsupported model: " +:+ modelName))], inl GENERIC)
      | Some c =>
          match send c with
          | None =>
              ([console_log message modelName; backend c;
                console_error "Error processing request:" CollaboratorError],
               inl GENERIC)
          | Some gptMessage =>
              let fullMessage := introMessage modelName +:+ gptMessage in
              match tts (voice modelName) fullMessage with
              | None =>
                  ([console_log message modelName; backend c;
                    speech_create (voice modelName) fullMessage;
                    console_error "Error creating audio:" CollaboratorError;
                    console_error "Error processing request:"
                      (Error "Failed to create audio")], inl GENERIC)
              | Some base64Audio =>
                  ([console_log message modelName; backend c;
                    speech_create (voice modelName) fullMessage;
                    res_status_json 200
                      (toJson {| data := base64Audio;
                                 contentType := "audio/mp3";
                                 model := modelName |})], inr tt)
              end
          end
      end
  end.
Proof.
  unfold handle, POST, try_catch.
  destruct (requestSchema_parse body) as [e | [message modelName]]; [reflexivity|].
  unfold bind at 1. cbn [emit app].
  unfold bind at 1, getModelResponse.
  destruct (route modelName (buildPrompt message)) as [c|]; [|reflexivity].
  unfold bind at 1. cbn [emit app].
  unfold lift. destruct (send c) as [gptMessage|]; [|reflexivity].
  unfold ret at 1. unfold bind at 1, createAudio, try_catch.
  unfold bind at 1. cbn [emit app].
  destruct (tts _ _) as [base64Audio|]; reflexivity.
Qed.

Lemma route_supported modelName prompt :
  route modelName prompt <> None <-> In modelName supportedModels.
Proof.
  unfold route, supportedModels.
  repeat match goal with
         | |- context [String.eqb modelName ?k] =>
             destruct (String.eqb modelName k) eqn:?;
             [ match goal with E : String.eqb _ _ = true |- _ =>
                 apply String.eqb_eq in E; subst modelName end;
               split; intros _; [simpl; auto 10 | discriminate]
             | ]
         end.
  cbn [orb]. split; [intros H; now contradiction H|].
  simpl. intros H.
  repeat (destruct H as [<-|H]; [discriminate|]). contradiction.
Qed.

Lemma parse_needs_string_message body :
  (forall m, prop "message" body <> Some (JStr m)) ->
  requestSchema_parse body = inl ZodError.
Proof.
  intros H. destruct body as [| | | | |fields]; try reflexivity.
  simpl in *. destruct (assoc "message" fields) as [[]|]; try reflexivity.
  now contradiction (H s).
Qed.

Lemma parse_accepts body message modelName :
  requestSchema_parse body = inr (message, modelName) ->
  exists fields,
    body = JObj fields /\ assoc "message" fields = Some (JStr message) /\
    (assoc "model" fields = None /\ modelName = "gpt" \/
     assoc "model" fields = Some (JStr modelName)).
Proof.
  destruct body as [| | | | |fields]; try discriminate.
  simpl. destruct (assoc "message" fields) as [[]|] eqn:Em; try discriminate.
  destruct (assoc "model" fields) as [[]|] eqn:Ek; try discriminate;
    intros [= <- <-]; exists fields; auto.
Qed.

(** No effect of a turn that ends in an error is a write to [res]. *)
Lemma error_sends_nothing body :
  snd (handle send tts body) = inl GENERIC ->
  forall status b, ~ In (res_status_json status b) (fst (handle send tts body)).
Proof.
  rewrite handle_unfold.
  destruct (requestSchema_parse body) as [e|[message modelName]].
  { simpl. intros _ status b [H|[]]. discriminate. }
  destruct (route _ _) as [c|].
  2:{ simpl. intros _ status b [H|[H|[]]]; discriminate. }
  destruct (send c) as [gptMessage|].
  2:{ simpl. intros _ status b [H|[H|[H|[]]]]; discriminate. }
  cbv zeta. destruct (tts _ _) as [base64Audio|]; [discriminate|].
  simpl. intros _ status b [H|[H|[H|[H|[H|[]]]]]]; discriminate.
Qed.

(** On every turn that fails the handler logs the error, rejects with the
    one generic error and has written nothing to [res]. *)
Lemma failure_is_rethrown body :
  fails send tts body ->
  snd (handle send tts body) = inl GENERIC /\
  (forall status b, ~ In (res_status_json status b) (fst (handle send tts body))) /\
  (exists e, last (fst (handle send tts body)) =
             Some (console_error "Error processing request:" e)).
Proof.
  intros Hf.
  assert (Hsnd : snd (handle send tts body) = inl GENERIC /\
                 exists e, last (fst (handle send tts body)) =
                           Some (console_error "Error processing request:" e)).
  { rewrite handle_unfold.
    destruct Hf as [e He | m n Hp Hr | m n c Hp Hr Hs | m n c g Hp Hr Hs Ht].
    - rewrite He. simpl. eauto.
    - rewrite Hp, Hr. simpl. eauto.
    - rewrite Hp, Hr, Hs. simpl. eauto.
    - rewrite Hp, Hr, Hs. cbv zeta. rewrite Ht. simpl. eauto. }
  destruct Hsnd as [Hsnd Hlast].
  split; [exact Hsnd|]. split; [|exact Hlast].
  now apply error_sends_nothing.
Qed.

Lemma written_nil tr :
  (forall status b, ~ In (res_status_json status b) tr) -> Endpoint.written tr = [].
Proof.
  induction tr as [|ev tr IH]; intros H; [reflexivity|].
  unfold Endpoint.written in *. cbn [omap list_omap].
  destruct ev as [| | | |status b];
    try (apply IH; intros status' b' Hin; apply (H status' b'); now right).
  exfalso. apply (H status b). now left.
Qed.

(** C1.  On every turn that fails - validation, unsupported model, backend
    failure, speech failure - the client of the endpoint receives one
    response and no other: the error response with status 500 and the body
    "Internal Server Error".  Its status is not a 2xx status, so the
    controller takes it as a failure ([response.ok] is false), and it is
    not a response the handler wrote: no success response, whole or
    partial, is sent. *)
Theorem C1_failure_gets_error_response body :
  fails send tts body ->
  Endpoint.endpoint send tts body =
    [Endpoint.error_reply 500 "Internal Server Error"] /\
  (forall r, In r (Endpoint.endpoint send tts body) ->
     ~ (200 <= Endpoint.reply_status r <= 299)%Z /\
     (exists text, r = Endpoint.error_reply (Endpoint.reply_status r) text /\
                   text <> "") /\
     forall json_body,
       Controller.failed (Controller.responded (Endpoint.reply_status r) json_body)
       = true) /\
  (forall status b,
     ~ In (Endpoint.handler_reply status b) (Endpoint.endpoint send tts body)).
Proof.
  intros Hf. destruct (failure_is_rethrown body Hf) as (Hsnd & Hnone & _).
  assert (He : Endpoint.endpoint send tts body =
               [Endpoint.error_reply 500 "Internal Server Error"]).
  { unfold Endpoint.endpoint.
    destruct (handle send tts body) as [tr [e|u]]; [|discriminate Hsnd].
    cbn [fst] in Hnone. now rewrite (written_nil tr Hnone). }
  rewrite He. split; [reflexivity|]. split.
  - intros r [<-|[]]. cbn [Endpoint.reply_status]. split; [lia|].
    split; [|reflexivity]. eexists. split; [reflexivity|discriminate].
  - intros status b [H|[]]. discriminate.
Qed.

(** A request the schema rejects reaches no backend. *)
Lemma schema_error_no_backend body e :
  requestSchema_parse body = inl e ->
  forall c, ~ In (backend c) (fst (handle send tts body)).
Proof.
  intros Hp c. rewrite handle_unfold, Hp. simpl. intros [Hc|[]]. discriminate.
Qed.

(** C2.  A request that fails validation (its [message] is missing or not
    a string, or the schema rejects it otherwise) and a request whose model
    is none of the known identifiers reach no backend: the effects of the
    turn hold no backend request, and the turn ends in the error. *)
Theorem C2_no_backend_call body :
  (forall m, prop "message" body <> Some (JStr m)) \/
  (exists e, requestSchema_parse body = inl e) \/
  (exists message modelName,
     requestSchema_parse body = inr (message, modelName) /\
     ~ In modelName supportedModels) ->
  (forall c, ~ In (backend c) (fst (handle send tts body))) /\
  snd (handle send tts body) = inl GENERIC.
Proof.
  intros H.
  assert (Hcases : (exists e, requestSchema_parse body = inl e) \/
                   exists message modelName,
                     requestSchema_parse body = inr (message, modelName) /\
                     route modelName (buildPrompt message) = None).
  { destruct H as [H | [H | (m & n & Hp & Hn)]].
    - left. eexists. now apply parse_needs_string_message.
    - now left.
    - right. exists m, n. split; [exact Hp|].
      destruct (route n (buildPrompt m)) eqn:E; [|reflexivity].
      exfalso. apply Hn. apply (route_supported n (buildPrompt m)). congruence. }
  destruct Hcases as [[e He] | (m & n & Hp & Hr)].
  - split; [now apply schema_error_no_backend with e|].
    now rewrite handle_unfold, He.
  - rewrite handle_unfold, Hp, Hr. simpl.
    split; [|reflexivity]. intros c [Hc|[Hc|[]]]; discriminate.
Qed.

(** C3.  For a request whose [message] is a string and whose [model] is a
    supported identifier, or is left out: every response the handler sends
    is a 200 whose [model] is the requested identifier, "gpt" when it was
    left out; a turn that succeeds ends with that response; and the turn
    does succeed whenever the backend and the speech collaborator answer. *)
Theorem C3_response_echoes_model fields message (requested : option string) :
  assoc "message" fields = Some (JStr message) ->
  assoc "model" fields = JStr <$> requested ->
  In (default "gpt" requested) supportedModels ->
  (forall status b,
     In (res_status_json status b) (fst (handle send tts (JObj fields))) ->
     status = 200%Z /\ prop "model" b = Some (JStr (default "gpt" requested))) /\
  (snd (handle send tts (JObj fields)) = inr tt ->
   exists base64Audio,
     last (fst (handle send tts (JObj fields))) =
     Some (res_status_json 200
             (toJson {| data := base64Audio; contentType := "audio/mp3";
                        model := default "gpt" requested |}))) /\
  (exists c,
     route (default "gpt" requested) (buildPrompt message) = Some c /\
     forall gptMessage base64Audio,
       send c = Some gptMessage ->
       tts (voice (default "gpt" requested))
           (introMessage (default "gpt" requested) +:+ gptMessage)
         = Some base64Audio ->
       handle send tts (JObj fields) =
       ([console_log message (default "gpt" requested); backend c;
         speech_create (voice (default "gpt" requested))
           (introMessage (default "gpt" requested) +:+ gptMessage);
         res_status_json 200
           (toJson {| data := base64Audio; contentType := "audio/mp3";
                      model := default "gpt" requested |})], inr tt)).
Proof.
  intros Hm Hmodel Hsup.
  assert (Hp : requestSchema_parse (JObj fields)
               = inr (message, default "gpt" requested)).
  { simpl. rewrite Hm, Hmodel. now destruct requested. }
  destruct (route (default "gpt" requested) (buildPrompt message)) as [c|] eqn:Hr.
  2:{ exfalso. now apply (route_supported _ (buildPrompt message)) in Hsup. }
  rewrite handle_unfold, Hp, Hr.
  destruct (send c) as [gptMessage|] eqn:Hs; cbv zeta.
  2:{ simpl. split; [|split].
      - intros status b [H|[H|[H|[]]]]; discriminate.
      - discriminate.
      - exists c. split; [reflexivity | congruence]. }
  destruct (tts _ _) as [base64Audio|] eqn:Ht; simpl.
  - split; [|split].
    + intros status b [H|[H|[H|[H|[]]]]]; try discriminate.
      injection H as <- <-. split; reflexivity.
    + intros _. now exists base64Audio.
    + exists c. split; [reflexivity|].
      intros g a Hg Hta. rewrite Hs in Hg. injection Hg as <-.
      rewrite Ht in Hta. now injection Hta as <-.
  - split; [|split].
    + intros status b [H|[H|[H|[H|[H|[]]]]]]; discriminate.
    + discriminate.
    + exists c. split; [reflexivity|].
      intros g a Hg Hta. rewrite Hs in Hg. injection Hg as <-.
      rewrite Ht in Hta. discriminate.
Qed.

Lemma route_prompt modelName prompt c :
  route modelName prompt = Some c -> promptOf c = prompt.
Proof.
  unfold route.
  repeat match goal with
         | |- context [if ?b then _ else _] => destruct b
         end; intros [= <-]; reflexivity.
Qed.

(** The backend requests of a turn, if any, are the one [route] names. *)
Lemma backend_call_is_routed body message modelName c :
  requestSchema_parse body = inr (message, modelName) ->
  In (backend c) (fst (handle send tts body)) ->
  route modelName (buildPrompt message) = Some c.
Proof.
  intros Hp. rewrite handle_unfold, Hp.
  destruct (route modelName (buildPrompt message)) as [c'|].
  2:{ simpl. intros [H|[H|[]]]; discriminate. }
  assert (Hc : forall tl, In (backend c) (console_log message modelName :: backend c' :: tl) ->
                          (forall c'', ~ In (backend c'') tl) -> Some c' = Some c).
  { intros tl [H|[H|H]] Htl; [discriminate | congruence | now apply Htl in H]. }
  destruct (send c') as [g|]; cbv zeta; [destruct (tts _ _)|]; simpl fst;
    intros H; apply (Hc _ H); intros c'' Hin; simpl in Hin;
    repeat (destruct Hin as [Hin|Hin]; [discriminate|]); exact Hin.
Qed.

(** C6.  The turn [{message: "gpt4 explain entropy", model: "gpt4"}]: the
    prompt is the fixed 1-2 sentence instruction followed by
    "explain entropy" (the leading token is gone), it goes to the hosted
    adapter with the "gpt-4" tier, the reply is spoken after "Gpt4 here, "
    with the voice of the non-local models ("echo"; the local ones have
    "fable"), and the response is a 200 with contentType "audio/mp3" and
    model "gpt4". *)
Theorem C6_gpt4_explain_entropy gptMessage base64Audio :
  send (LangchainOpenAI_invoke (Some "gpt-4")
          "Be precise and concise, never respond in more than 1-2 sentences! explain entropy")
  = Some gptMessage ->
  tts echo ("Gpt4 here, " +:+ gptMessage) = Some base64Audio ->
  buildPrompt "gpt4 explain entropy" =
    "Be precise and concise, never respond in more than 1-2 sentences! explain entropy" /\
  voice "gpt4" = echo /\ voice "local mistral" = fable /\
  handle send tts
    (JObj [("message", JStr "gpt4 explain entropy"); ("model", JStr "gpt4")]) =
  ([console_log "gpt4 explain entropy" "gpt4";
    backend (LangchainOpenAI_invoke (Some "gpt-4")
               "Be precise and concise, never respond in more than 1-2 sentences! explain entropy");
    speech_create echo ("Gpt4 here, " +:+ gptMessage);
    res_status_json 200
      (JObj [("data", JStr base64Audio); ("contentType", JStr "audio/mp3");
             ("model", JStr "gpt4")])], inr tt).
Proof.
  intros Hs Ht. repeat split; try reflexivity.
  rewrite handle_unfold.
  change (requestSchema_parse _) with
    (@inr exn _ ("gpt4 explain entropy", "gpt4")).
  cbv iota beta.
  change (route "gpt4" (buildPrompt "gpt4 explain entropy")) with
    (Some (LangchainOpenAI_invoke (Some "gpt-4")
             "Be precise and concise, never respond in more than 1-2 sentences! explain entropy")).
  cbv iota beta. rewrite Hs. cbv zeta.
  change (voice "gpt4") with echo.
  change (introMessage "gpt4" +:+ gptMessage) with ("Gpt4 here, " +:+ gptMessage).
  rewrite Ht. reflexivity.
Qed.

(** C9 (amended).  The schema asks for a string, not for a non-empty one:
    a request is accepted only if its [message] is a string; one whose
    [message] is absent or not a string is rejected before any backend
    call; the empty string is accepted like any other and its turn goes to
    the backend with the bare instruction as prompt. *)
Theorem C9_message_is_any_string body :
  (forall message modelName,
     requestSchema_parse body = inr (message, modelName) ->
     prop "message" body = Some (JStr message)) /\
  ((forall m, prop "message" body <> Some (JStr m)) ->
   requestSchema_parse body = inl ZodError /\
   forall c, ~ In (backend c) (fst (handle send tts body))) /\
  (prop "message" body = Some (JStr "") -> prop "model" body = None ->
   requestSchema_parse body = inr ("", "gpt") /\
   buildPrompt "" = SYSTEM_PREFIX /\
   In (backend (LangchainOpenAI_invoke None SYSTEM_PREFIX))
      (fst (handle send tts body))).
Proof.
  split; [|split].
  - intros message modelName Hp.
    destruct (parse_accepts _ _ _ Hp) as (fields & -> & Hm & _). exact Hm.
  - intros H. apply parse_needs_string_message in H.
    split; [exact H|]. now apply schema_error_no_backend with ZodError.
  - intros Hm Hk. destruct body as [| | | | |fields]; try discriminate.
    simpl in Hm, Hk.
    assert (Hp : requestSchema_parse (JObj fields) = inr ("", "gpt"))
      by (simpl; now rewrite Hm, Hk).
    split; [exact Hp|]. split; [reflexivity|].
    rewrite handle_unfold, Hp. cbv iota beta.
    change (route "gpt" (buildPrompt "")) with
      (Some (LangchainOpenAI_invoke None SYSTEM_PREFIX)).
    cbv iota beta.
    destruct (send _); cbv zeta; [destruct (tts _ _)|]; simpl; auto.
Qed.

(** C10 (amended).  The prompt is the instruction followed by the
    lowercased message without its first token, a token being what
    [split(' ')] cuts (all that stands before the first space, possibly
    nothing), whatever the model and whether or not a keyword was spoken:
    the lowercased message is that token (which holds no space), then, if
    there is more, a space and the rest, and the rest is what the backend
    gets.  So "tell me a joke" loses its first word, and of
    "local mistral ..." the word "mistral" stays. *)
Theorem C10_one_leading_token_dropped message :
  (exists first rest,
     split (toLowerCase message) = first :: rest /\
     includes first " " = false /\
     toLowerCase message = join (first :: rest) /\
     buildPrompt message = SYSTEM_PREFIX +:+ join rest) /\
  (forall body modelName c,
     requestSchema_parse body = inr (message, modelName) ->
     In (backend c) (fst (handle send tts body)) ->
     promptOf c = buildPrompt message) /\
  buildPrompt "tell me a joke" = SYSTEM_PREFIX +:+ "me a joke" /\
  buildPrompt "local mistral tell me a joke" =
    SYSTEM_PREFIX +:+ "mistral tell me a joke".
Proof.
  split; [|split; [|split; reflexivity]].
  - destruct (split (toLowerCase message)) as [|first rest] eqn:E.
    { now apply split_nonempty in E. }
    exists first, rest. split; [reflexivity|].
    pose proof (split_no_space (toLowerCase message)) as Hns.
    rewrite E in Hns. inversion Hns as [|? ? Hfirst _]; subst.
    split; [exact Hfirst|]. split.
    + rewrite <- E. symmetry. apply join_split.
    + unfold buildPrompt. rewrite E. reflexivity.
  - intros body modelName c Hp Hin.
    eapply route_prompt, backend_call_is_routed; eassumption.
Qed.

End DispatcherFacts.

(** ** The dispatcher on concrete turns *)
Section DispatcherExamples.

Import Dispatcher.

Lemma C1_witness :
  fails answering_send failing_tts (JObj [("message", JStr "hello there")]) /\
  Endpoint.endpoint answering_send failing_tts
    (JObj [("message", JStr "hello there")])
  = [Endpoint.error_reply 500 "Internal Server Error"].
Proof.
  assert (Hf : fails answering_send failing_tts
                 (JObj [("message", JStr "hello there")]))
    by (eapply fails_synthesis; reflexivity).
  split; [exact Hf|].
  exact (proj1 (C1_failure_gets_error_response answering_send failing_tts
                  (JObj [("message", JStr "hello there")]) Hf)).
Defined.

Lemma C2_witness :
  (exists message modelName,
     requestSchema_parse
       (JObj [("message", JStr "hello"); ("model", JStr "unknown-model")])
     = inr (message, modelName) /\ ~ In modelName supportedModels) /\
  (forall c,
     ~ In (backend c)
          (fst (handle answering_send answering_tts
                  (JObj [("message", JStr "hello");
                         ("model", JStr "unknown-model")])))) /\
  snd (handle answering_send answering_tts
         (JObj [("message", JStr "hello"); ("model", JStr "unknown-model")]))
  = inl GENERIC.
Proof.
  assert (H : exists message modelName,
            requestSchema_parse
              (JObj [("message", JStr "hello"); ("model", JStr "unknown-model")])
            = inr (message, modelName) /\ ~ In modelName supportedModels).
  { exists "hello", "unknown-model". split; [reflexivity|].
    simpl. intros H. repeat (destruct H as [H|H]; [discriminate|]). exact H. }
  split; [exact H|].
  apply (C2_no_backend_call answering_send answering_tts). right. right. exact H.
Defined.

Lemma C3_witness :
  handle answering_send answering_tts
    (JObj [("message", JStr "local llama say hi"); ("model", JStr "local llama")])
  = ([console_log "local llama say hi" "local llama";
      backend (Ollama_invoke "llama2" (SYSTEM_PREFIX +:+ "llama say hi"));
      speech_create fable "Local llama here, Entropy measures disorder.";
      res_status_json 200
        (toJson {| data := "SUQzBAAAAAAA"; contentType := "audio/mp3";
                   model := "local llama" |})], inr tt).
Proof.
  destruct (C3_response_echoes_model answering_send answering_tts
              [("message", JStr "local llama say hi");
               ("model", JStr "local llama")]
              "local llama say hi" (Some "local llama")
              eq_refl eq_refl)
    as (_ & _ & c & Hc & Hrun).
  - simpl. auto 10.
  - injection Hc as <-. apply Hrun; reflexivity.
Defined.

Lemma C6_witness :
  buildPrompt "gpt4 explain entropy" =
    "Be precise and concise, never respond in more than 1-2 sentences! explain entropy" /\
  voice "gpt4" = echo /\ voice "local mistral" = fable /\
  handle answering_send answering_tts
    (JObj [("message", JStr "gpt4 explain entropy"); ("model", JStr "gpt4")]) =
  ([console_log "gpt4 explain entropy" "gpt4";
    backend (LangchainOpenAI_invoke (Some "gpt-4")
               "Be precise and concise, never respond in more than 1-2 sentences! explain entropy");
    speech_create echo "Gpt4 here, Entropy measures disorder.";
    res_status_json 200
      (JObj [("data", JStr "SUQzBAAAAAAA"); ("contentType", JStr "audio/mp3");
             ("model", JStr "gpt4")])], inr tt).
Proof.
  apply (C6_gpt4_explain_entropy answering_send answering_tts); reflexivity.
Defined.

(** C10 as stated does not hold for whitespace-separated tokens: where a
    tab joins the first two words, both go; where the message starts with
    two spaces, only one of the spaces goes and the first word stays. *)
Lemma C10_counterexample :
  (SpecReading.whitespaceTokens
     (toLowerCase ("use" +:+ SpecReading.tab +:+ "mistral now tell"))
   = ["use"; "mistral"; "now"; "tell"] /\
   buildPrompt ("use" +:+ SpecReading.tab +:+ "mistral now tell")
   = SYSTEM_PREFIX +:+ "now tell") /\
  (SpecReading.whitespaceTokens (toLowerCase "  tell me a joke")
   = ["tell"; "me"; "a"; "joke"] /\
   buildPrompt "  tell me a joke" = SYSTEM_PREFIX +:+ " tell me a joke").
Proof.
  split; split; vm_compute; reflexivity.
Qed.

(** C9 as stated does not hold: the empty [message] passes the schema and
    its turn runs to the end, backend request included. *)
Lemma C9_counterexample :
  requestSchema_parse (JObj [("message", JStr "")]) = inr ("", "gpt") /\
  handle answering_send answering_tts (JObj [("message", JStr "")]) =
  ([console_log "" "gpt";
    backend (LangchainOpenAI_invoke None SYSTEM_PREFIX);
    speech_create echo "Gpt here, Entropy measures disorder.";
    res_status_json 200
      (toJson {| data := "SUQzBAAAAAAA"; contentType := "audio/mp3";
                 model := "gpt" |})], inr tt).
Proof.
  split; [reflexivity|].
  rewrite handle_unfold. reflexivity.
Qed.

End DispatcherExamples.

(** ** The controller: keyword detection *)
Section DetectionFacts.

Import Controller.

(** The searched text is made of the first three tokens, lowercased. *)
Lemma head3_tokens t : head3 t = join (map toLowerCase (take 3 (split t))).
Proof. unfold head3, slice_to. apply toLowerCase_join. Qed.

(** A keyword that holds another one wins over it. *)
Lemma specific_keyword_wins t k1 k2 :
  In k1 modelKeywords -> In k2 modelKeywords -> k1 <> k2 ->
  includes k1 k2 = true -> includes (head3 t) k1 = true ->
  detectModel t <> Some k2.
Proof.
  unfold modelKeywords. intros H1 H2 Hne Hinc Hhead. simpl in H1, H2.
  repeat (destruct H1 as [<-|H1]); try contradiction;
    repeat (destruct H2 as [<-|H2]); try contradiction;
    try congruence; try (vm_compute in Hinc; discriminate);
    unfold detectModel, modelKeywords, find; cbn [List.find];
    repeat match goal with
           | |- context [includes (head3 t) ?k] =>
               destruct (includes (head3 t) k) eqn:?
           end; congruence.
Qed.

(** C4 (amended).  Keyword detection looks at the first three tokens of
    the transcript only, tokens being what [split(' ')] cuts: at every
    single space, so that a leading or doubled space gives an empty token
    that counts, and a tab or newline does not separate.  It lowercases
    them, joined by spaces, and returns the first keyword of the list that
    this text contains; in the list an identifier that contains another one
    stands before it, so the more specific identifier wins; and for
    "local mistral please tell me a joke" the result is "local mistral",
    not "mistral". *)
Theorem C4_keyword_detection :
  (forall t1 t2,
     take 3 (split t1) = take 3 (split t2) -> detectModel t1 = detectModel t2) /\
  (forall t, head3 t = join (map toLowerCase (take 3 (split t)))) /\
  (forall t k,
     detectModel t = Some k <->
     exists pre post,
       modelKeywords = (pre ++ k :: post)%list /\
       includes (head3 t) k = true /\
       Forall (fun k' => includes (head3 t) k' = false) pre) /\
  (forall i j k1 k2,
     modelKeywords !! i = Some k1 -> modelKeywords !! j = Some k2 ->
     k1 <> k2 -> includes k1 k2 = true -> i < j) /\
  (forall t k1 k2,
     In k1 modelKeywords -> In k2 modelKeywords -> k1 <> k2 ->
     includes k1 k2 = true -> includes (head3 t) k1 = true ->
     detectModel t <> Some k2) /\
  detectModel "local mistral please tell me a joke" = Some "local mistral".
Proof.
  split; [|split; [|split; [|split; [|split]]]].
  - intros t1 t2 H. unfold detectModel, head3, slice_to. now rewrite H.
  - exact head3_tokens.
  - intros t k. unfold detectModel. apply find_first.
  - unfold modelKeywords. intros i j k1 k2 Hi Hj Hne Hinc.
    pose proof (lookup_lt_Some _ _ _ Hi) as Li.
    pose proof (lookup_lt_Some _ _ _ Hj) as Lj. simpl in Li, Lj.
    destruct i as [|[|[|[|[|[|[|[|i]]]]]]]]; try lia;
      injection Hi as <-;
      destruct j as [|[|[|[|[|[|[|[|j]]]]]]]]; try lia;
      injection Hj as <-;
      try congruence; vm_compute in Hinc; discriminate.
  - exact specific_keyword_wins.
  - reflexivity.
Qed.

(** C4 as stated does not hold for whitespace-separated tokens.  Two
    transcripts with the same first three whitespace-separated tokens
    (a, b, c) are told apart by a keyword in the fourth; and a keyword that
    is the third whitespace-separated token of a transcript goes unseen
    when the transcript starts with a space. *)
Lemma C4_counterexample :
  (take 3 (SpecReading.whitespaceTokens
             ("a b" +:+ SpecReading.tab +:+ "c mistral")) =
   take 3 (SpecReading.whitespaceTokens
             ("a b" +:+ SpecReading.tab +:+ "c nothing")) /\
   detectModel ("a b" +:+ SpecReading.tab +:+ "c mistral") = Some "mistral" /\
   detectModel ("a b" +:+ SpecReading.tab +:+ "c nothing") = None) /\
  (take 3 (SpecReading.whitespaceTokens " hey use mistral to answer")
   = ["hey"; "use"; "mistral"] /\
   split " hey use mistral to answer"
   = [""; "hey"; "use"; "mistral"; "to"; "answer"] /\
   detectModel " hey use mistral to answer" = None /\
   detectModel "hey use mistral to answer" = Some "mistral").
Proof.
  split; [split; [|split] | split; [|split; [|split]]]; vm_compute; reflexivity.
Qed.

End DetectionFacts.

(** ** The controller: transitions and invariants *)
Section ControllerFacts.

Import Dispatcher Controller.

Lemma stopRecording_eq s :
  stopRecording s =
  with_recognizers
    (fun m => match recognitionRef s with Some r => alter stop r m | None => m end)
    (recognitionRef s) s.
Proof.
  unfold stopRecording. destruct (recognitionRef s) eqn:E; [reflexivity|].
  destruct s; simpl in *; now subst.
Qed.

Lemma clearSilenceTimer_eq s :
  clearSilenceTimer s =
  with_timeouts
    (fun m => match silenceTimerRef s with Some t => delete t m | None => m end)
    (silenceTimerRef s) s.
Proof.
  unfold clearSilenceTimer. destruct (silenceTimerRef s) eqn:E; [reflexivity|].
  destruct s; simpl in *; now subst.
Qed.

(** Unfold the callbacks and read the fields of the state they build. *)
Ltac ctrl_simpl :=
  unfold handleToggleRecording, bubbleClicked, silenceElapsed,
    recognitionEnded, audioEnded, fetchSettled, handleResult, sendToBackend,
    startRecording;
  rewrite ?stopRecording_eq, ?clearSilenceTimer_eq;
  cbn [isRecording isPlaying transcript model response recognitionRef
       silenceTimerRef recognizers timeouts fetches audios fresh
       setIsRecording setIsPlaying setTranscript setModel setResponse
       with_recognizers with_timeouts with_fetches with_audios alloc].

Ltac ctrl_cases :=
  repeat (ctrl_simpl;
          match goal with
          | |- context [match ?x with _ => _ end] => destruct x eqn:?
          end);
  ctrl_simpl.

(** From [step e s = Some s'] to the callback that ran. *)
Ltac step_inv H :=
  unfold step in H;
  repeat match type of H with
         | context [match ?x with _ => _ end] => destruct x eqn:?
         end;
  try discriminate H; injection H as <-.

Lemma fetchSettled_flags env o s :
  isRecording (fetchSettled env o s) = isRecording s /\
  isPlaying (fetchSettled env o s) = plays o || isPlaying s.
Proof.
  unfold fetchSettled, plays.
  destruct o as [|http_status [d|]]; [split; reflexivity| |].
  - destruct (response_ok http_status); cbn [negb andb orb]; [|split; reflexivity].
    destruct (_ && _); ctrl_simpl; split; reflexivity.
  - destruct (response_ok http_status); split; reflexivity.
Qed.

(** Every step keeps "at most one flag", except a playable reply that
    arrives while [isRecording]. *)
Lemma step_exclusive e s s' :
  step e s = Some s' -> quiet e s = true -> exclusive s -> exclusive s'.
Proof.
  unfold exclusive, quiet. intros Hstep Hq Hex.
  destruct e as [|m|r idx results|r|t|q o|a]; step_inv Hstep;
    try match goal with
        | |- context [fetchSettled ?env ?o ?x] =>
            destruct (fetchSettled_flags env o x) as [-> ->]; destruct (plays o)
        end;
    ctrl_cases; try reflexivity;
    destruct (isRecording s) eqn:?, (isPlaying s) eqn:?;
    cbn [andb negb orb] in *; congruence.
Qed.

Lemma run_exclusive evs s s' :
  run evs s = Some s' -> quiet_run evs s = true -> exclusive s -> exclusive s'.
Proof.
  revert s. induction evs as [|e evs IH]; intros s Hrun Hq Hex; simpl in *.
  - now injection Hrun as <-.
  - destruct (step e s) as [s1|] eqn:Hstep; [|discriminate].
    apply andb_true_iff in Hq as [Hq1 Hq2].
    eapply IH; eauto using step_exclusive.
Qed.

Lemma live_alter_stop r m : live m -> live (alter stop r m).
Proof.
  intros (r0 & rc & Hr0 & Hrc). destruct (decide (r = r0)) as [->|Hne].
  - exists r0, (stop rc). rewrite lookup_alter_eq, Hr0. split; [reflexivity|].
    destruct rc as [[] ?]; cbn in *; congruence.
  - exists r0, rc. now rewrite lookup_alter_ne.
Qed.

Lemma live_insert_started r env m :
  live (<[r := {| status := started; rec_model := env |}]> m).
Proof. eexists r, _. rewrite lookup_insert_eq. split; [reflexivity | discriminate]. Qed.

(** [isRecording] is set only while some recognizer is yet to end. *)
Lemma step_recording_live e s s' :
  step e s = Some s' ->
  (isRecording s = true -> live (recognizers s)) ->
  isRecording s' = true -> live (recognizers s').
Proof.
  intros Hstep Hinv.
  destruct e as [|m|r idx results|r|t|q o|a]; step_inv Hstep;
    try match goal with
        | |- context [fetchSettled ?env ?o ?x] =>
            destruct (fetchSettled_flags env o x) as [Hflag _];
            rewrite Hflag; clear Hflag; unfold fetchSettled
        end;
    ctrl_cases; intros Hrec;
    repeat first [ apply live_insert_started | apply live_alter_stop ];
    first [ now apply Hinv | congruence ].
Qed.

Lemma run_recording_live evs s s' :
  run evs s = Some s' ->
  (isRecording s = true -> live (recognizers s)) ->
  isRecording s' = true -> live (recognizers s').
Proof.
  revert s. induction evs as [|e evs IH]; intros s Hrun Hinv; simpl in *.
  - now injection Hrun as <-.
  - destruct (step e s) as [s1|] eqn:Hstep; [|discriminate].
    eapply IH; eauto using step_recording_live.
Qed.

(** A step in which a recognizer comes to exist ran [startRecording]: it
    leaves [isRecording] set and [isPlaying] clear. *)
Lemma step_starts_recording e s s' r :
  step e s = Some s' ->
  recognizers s !! r = None -> is_Some (recognizers s' !! r) ->
  isRecording s' = true /\ isPlaying s' = false.
Proof.
  intros Hstep Hnone Hsome.
  destruct e; step_inv Hstep; revert Hsome; ctrl_cases; intros Hsome.
  all: try (split; [reflexivity|]; first [reflexivity | assumption |
               now apply andb_true_iff in Heqb as [_ ->%negb_true_iff]]).
  all: exfalso;
    repeat first
      [ rewrite lookup_alter_is_Some in Hsome
      | apply lookup_insert_is_Some' in Hsome as [<-|Hsome] ];
    try (rewrite Hnone in Hsome; now destruct Hsome);
    try congruence.
Qed.

(** A step in which a request leaves ran [sendToBackend]: the current
    recognizer was told to stop first. *)
Lemma step_stops_before_sending e s s' q :
  step e s = Some s' ->
  fetches s !! q = None -> is_Some (fetches s' !! q) ->
  forall r rc,
    recognitionRef s' = Some r -> recognizers s' !! r = Some rc ->
    status rc <> started.
Proof.
  assert (Hstop : forall rc, status (stop rc) <> started).
  { intros [[] ?]; discriminate. }
  intros Hstep Hnone Hsome r rc Hr Hrc.
  destruct e; step_inv Hstep; revert Hsome Hr Hrc; ctrl_cases;
    intros Hsome Hr Hrc; simplify_eq;
    try (rewrite Hnone in Hsome; now destruct Hsome);
    try (apply lookup_delete_is_Some in Hsome as [_ Hsome];
         rewrite Hnone in Hsome; now destruct Hsome);
    repeat match goal with
           | H : alter stop ?i _ !! ?i = Some _ |- _ =>
               rewrite lookup_alter_eq in H;
               apply fmap_Some in H as (? & ? & ->)
           end; apply Hstop.
Qed.

(** The silence timer has one owner: every step keeps each pending
    timer under [silenceTimerRef]. *)
Lemma step_timer_owned e s s' :
  step e s = Some s' -> timer_owned s -> timer_owned s'.
Proof.
  unfold timer_owned. intros Hstep Hown t Ht.
  destruct e; step_inv Hstep; revert Ht; ctrl_cases; intros Ht;
    try (now apply Hown);
    repeat first
      [ apply lookup_insert_is_Some in Ht as [->|[? Ht]]; [reflexivity|]
      | apply lookup_delete_is_Some in Ht as [? Ht] ];
    try (apply Hown in Ht; congruence).
Qed.

Lemma init_timer_owned : timer_owned init.
Proof. intros t [x Hx]. simpl in Hx. now rewrite lookup_empty in Hx. Qed.

Lemma run_timer_owned evs s s' :
  run evs s = Some s' -> timer_owned s -> timer_owned s'.
Proof.
  revert s. induction evs as [|e evs IH]; intros s Hrun Hown; simpl in *.
  - now injection Hrun as <-.
  - destruct (step e s) as [s1|] eqn:Hstep; [|discriminate].
    eauto using step_timer_owned.
Qed.

Lemma reachable_timer_owned s : reachable s -> timer_owned s.
Proof. intros [evs Hrun]. eapply run_timer_owned; eauto using init_timer_owned. Qed.

(** The [catch] of [sendToBackend] only logs: a failed request leaves the
    state as it was, the settled request apart. *)
Lemma failed_fetch_is_noop q o s s' :
  failed o = true ->
  step (fetch_settles q o) s = Some s' -> s' = with_fetches (delete q) s.
Proof.
  unfold step. intros Hf Hstep.
  destruct (fetches s !! q) as [rq|]; [|discriminate].
  injection Hstep as <-. unfold fetchSettled.
  destruct o as [|http_status json_body]; [reflexivity|].
  cbn [failed] in Hf. now rewrite Hf.
Qed.

(** After the [end] event of a recognizer nothing is listening and, the
    timer having one owner, no timer is pending. *)
Lemma speech_end_clears r s s' :
  timer_owned s -> step (speech_end r) s = Some s' ->
  isRecording s' = false /\ isPlaying s' = isPlaying s /\ timeouts s' = ∅.
Proof.
  unfold timer_owned. intros Hown Hstep.
  step_inv Hstep; ctrl_cases;
    (split; [reflexivity|]; split; [reflexivity|]);
    apply map_empty; intros t;
    destruct (timeouts s !! t) as [x|] eqn:Ht;
    try (assert (Hs : is_Some (timeouts s !! t)) by (rewrite Ht; eauto);
         apply Hown in Hs; simplify_eq);
    rewrite ?lookup_delete_None; auto.
Qed.

Lemma fresh_stopRecording s : fresh (stopRecording s) = fresh s.
Proof. now rewrite stopRecording_eq. Qed.

Lemma fetches_stopRecording s : fetches (stopRecording s) = fetches s.
Proof. now rewrite stopRecording_eq. Qed.

(** [sendToBackend] puts exactly one request in flight, under a new id. *)
Lemma sendToBackend_fetches env message modelKeyword s :
  fetches (sendToBackend env message modelKeyword s) =
  <[fresh s := {| body := requestBody message modelKeyword;
                  request_model := env |}]> (fetches s).
Proof. ctrl_cases; reflexivity. Qed.

(** Only the toggle with both flags clear and the end of a playback
    bring a recognizer to exist. *)
Lemma step_starts_from e s s' r :
  step e s = Some s' ->
  recognizers s !! r = None -> is_Some (recognizers s' !! r) ->
  (e = click_toggle /\ isRecording s = false /\ isPlaying s = false) \/
  (exists a, e = audio_ended a).
Proof.
  intros Hstep Hnone Hsome.
  destruct e; step_inv Hstep; revert Hsome; ctrl_cases; intros Hsome.
  all: first
    [ solve [ exfalso;
              repeat first
                [ rewrite lookup_alter_is_Some in Hsome
                | apply lookup_insert_is_Some' in Hsome as [<-|Hsome] ];
              try (rewrite Hnone in Hsome; now destruct Hsome);
              congruence ]
    | right; eexists; reflexivity
    | left; split; [reflexivity|];
      match goal with
      | H : negb (isRecording _) && negb (isPlaying _) = true |- _ =>
          apply andb_true_iff in H as [H1 H2];
          apply negb_true_iff in H1; apply negb_true_iff in H2; now split
      end ].
Qed.

Lemma reachable_recording_live s :
  reachable s -> isRecording s = true -> live (recognizers s).
Proof. intros [evs Hrun]. eapply run_recording_live; eauto. discriminate. Qed.

(** What the [end] event of a recognizer does to the objects. *)
Lemma speech_end_objects r s s' :
  step (speech_end r) s = Some s' ->
  audios s' = audios s /\
  exists rc,
    recognizers s !! r = Some rc /\
    recognizers s' = <[r := {| status := ended; rec_model := rec_model rc |}]>
                       (recognizers s).
Proof.
  intros Hstep. step_inv Hstep; ctrl_cases; (split; [reflexivity|]);
    eexists; (split; [reflexivity|]); reflexivity.
Qed.

(** With [r] ended, someone is still listening exactly if another
    recognizer is. *)
Lemma not_live_insert_ended r env (m : gmap nat recognizer) :
  ~ live (<[r := {| status := ended; rec_model := env |}]> m) <->
  (forall r' rc, m !! r' = Some rc -> r' = r \/ status rc = ended).
Proof.
  split.
  - intros Hn r' rc Hl. destruct (decide (r' = r)) as [->|Hne]; [now left|].
    right. destruct (status rc) eqn:Hs; try reflexivity;
      exfalso; apply Hn; exists r', rc; rewrite lookup_insert_ne by congruence;
      (split; [exact Hl|]); rewrite Hs; discriminate.
  - intros H (r' & rc & Hl & Hs). destruct (decide (r' = r)) as [->|Hne].
    + rewrite lookup_insert_eq in Hl. injection Hl as <-. now apply Hs.
    + rewrite lookup_insert_ne in Hl by congruence.
      destruct (H r' rc Hl) as [?|?]; congruence.
Qed.

Lemma idle_with_fetches f s : idle (with_fetches f s) <-> idle s.
Proof. reflexivity. Qed.

End ControllerFacts.

(** ** The controller: the claims on the turn loop *)
Section TurnFacts.

Import Dispatcher Controller.

Variable send : backendCall -> option string.
Variable tts : VoiceType -> string -> option string.

(** C5 (amended).  The tokens are those [split(" ")] cuts.  When the
    silence timer fires on a transcript whose first three such tokens,
    joined by single spaces and lowercased, contain no keyword, the request
    that leaves carries the transcript and no model; the dispatcher reads
    it as model "gpt", asks only the hosted adapter in its default tier,
    and every response it sends - it sends one whenever backend and speech
    answer - has model "gpt". *)
Theorem C5_no_keyword_defaults_to_gpt (s : state) tm cb :
  timeouts s !! tm = Some cb ->
  Forall (fun keyword =>
            includes (toLowerCase (join (take 3 (split (interimTranscript cb)))))
                     keyword = false)
         ["gpt4"; "gpt"; "perplexity"; "local mistral"; "local llama";
          "mixture"; "mistral"; "llama"] ->
  exists s',
    step (timer_fires tm) s = Some s' /\
    fetches s' !! fresh s =
      Some {| body := JObj [("message", JStr (interimTranscript cb))];
              request_model := timeout_model cb |} /\
    requestSchema_parse (JObj [("message", JStr (interimTranscript cb))])
      = inr (interimTranscript cb, "gpt") /\
    (forall c,
       In (backend c)
          (fst (handle send tts (JObj [("message", JStr (interimTranscript cb))]))) ->
       c = LangchainOpenAI_invoke None (buildPrompt (interimTranscript cb))) /\
    (forall status b,
       In (res_status_json status b)
          (fst (handle send tts (JObj [("message", JStr (interimTranscript cb))]))) ->
       status = 200%Z /\ prop "model" b = Some (JStr "gpt")) /\
    (forall gptMessage base64Audio,
       send (LangchainOpenAI_invoke None (buildPrompt (interimTranscript cb)))
         = Some gptMessage ->
       tts echo ("Gpt here, " +:+ gptMessage) = Some base64Audio ->
       handle send tts (JObj [("message", JStr (interimTranscript cb))]) =
       ([console_log (interimTranscript cb) "gpt";
         backend (LangchainOpenAI_invoke None (buildPrompt (interimTranscript cb)));
         speech_create echo ("Gpt here, " +:+ gptMessage);
         res_status_json 200
           (JObj [("data", JStr base64Audio); ("contentType", JStr "audio/mp3");
                  ("model", JStr "gpt")])], inr tt)).
Proof.
  intros Htm Hdet. apply find_none in Hdet.
  change (detectModel (interimTranscript cb) = None) in Hdet.
  set (t := interimTranscript cb) in *.
  eexists. split; [unfold step; rewrite Htm; reflexivity|].
  split.
  { unfold silenceElapsed. fold t. rewrite Hdet.
    change (fetches (setTranscript "" ?x)) with (fetches x).
    rewrite sendToBackend_fetches. apply lookup_insert_eq. }
  split; [reflexivity|].
  assert (Hc : forall c,
             In (backend c) (fst (handle send tts (JObj [("message", JStr t)]))) ->
             c = LangchainOpenAI_invoke None (buildPrompt t)).
  { intros c Hin.
    pose proof (backend_call_is_routed send tts (JObj [("message", JStr t)])
                  t "gpt" c eq_refl Hin) as Hr.
    now injection Hr as <-. }
  split; [exact Hc|].
  rewrite handle_unfold.
  change (requestSchema_parse _) with (@inr exn _ (t, "gpt")). cbv iota beta.
  change (route "gpt" (buildPrompt t)) with
    (Some (LangchainOpenAI_invoke None (buildPrompt t))). cbv iota beta.
  change (voice "gpt") with echo.
  destruct (send _) as [g|]; cbv zeta.
  2:{ split; [|discriminate].
      intros status b H. simpl in H.
      repeat (destruct H as [H|H]; [discriminate|]). contradiction. }
  change (introMessage "gpt" +:+ g) with ("Gpt here, " +:+ g).
  destruct (tts _ _) as [a|] eqn:Ht.
  - split.
    + intros status b H. simpl in H.
      destruct H as [H|[H|[H|[H|[]]]]]; try discriminate.
      injection H as <- <-. split; reflexivity.
    + intros g' a' [= <-] Ht'. rewrite Ht in Ht'. now injection Ht' as <-.
  - split.
    + intros status b H. simpl in H.
      repeat (destruct H as [H|H]; [discriminate|]). contradiction.
    + intros g' a' [= <-] Ht'. rewrite Ht in Ht'. discriminate.
Qed.

(** C7 (amended).  In every state reached by a run in which no playable
    reply arrives while [isRecording] is set, at most one of [isRecording]
    and [isPlaying] is set.  In every reachable state [isRecording] is set
    only while some recognizer has yet to deliver its [end] event, so a
    reply that arrives when every recognizer has delivered it keeps the
    proviso.  For every step from every state: a step that starts a
    recognizer is the toggle with both flags clear or the end of a
    playback, and leaves [isRecording] set and [isPlaying] clear; and a
    step that sends a request has told the current recognizer to stop
    first.  Both flags are set in some reachable state: recording is
    started with the toggle while the request of a bubble is in flight,
    and the reply arrives. *)
Theorem C7_flags_exclusive_while_quiet :
  (forall evs s,
     run evs init = Some s -> quiet_run evs init = true -> exclusive s) /\
  (forall s, reachable s -> isRecording s = true -> live (recognizers s)) /\
  (forall s q o,
     reachable s -> ~ live (recognizers s) -> quiet (fetch_settles q o) s = true) /\
  (forall e s s' r,
     step e s = Some s' ->
     recognizers s !! r = None -> is_Some (recognizers s' !! r) ->
     ((e = click_toggle /\ isRecording s = false /\ isPlaying s = false) \/
      (exists a, e = audio_ended a)) /\
     isRecording s' = true /\ isPlaying s' = false) /\
  (forall e s s' q,
     step e s = Some s' ->
     fetches s !! q = None -> is_Some (fetches s' !! q) ->
     forall r rc,
       recognitionRef s' = Some r -> recognizers s' !! r = Some rc ->
       status rc <> started) /\
  (exists s,
     run [click_bubble "gpt"; click_toggle; fetch_settles 1 audio_reply] init
       = Some s /\
     isRecording s = true /\ isPlaying s = true).
Proof.
  split; [|split; [|split; [|split; [|split]]]].
  6:{ eexists. split; [vm_compute; reflexivity|]. split; reflexivity. }
  - intros evs s Hrun Hq. eapply run_exclusive; eauto. reflexivity.
  - apply reachable_recording_live.
  - intros s q o Hreach Hn. unfold quiet.
    destruct (isRecording s) eqn:Hrec.
    + exfalso. apply Hn. now apply reachable_recording_live.
    + now rewrite andb_false_r.
  - intros e s s' r Hstep Hnone Hsome. split.
    + eapply step_starts_from; eauto.
    + eapply step_starts_recording; eauto.
  - intros e s s' q. apply step_stops_before_sending.
Qed.

(** C8 (amended).  When the Sending phase fails, the handler only logs:
    the step changes no flag, no timer, no recognizer and no audio, and
    puts no request in flight (no retry, no resumption of listening), so
    the controller is Idle after the failure exactly if it was before.
    When the failure follows the [end] event of a recognizer, [isRecording]
    is clear and no silence timer is pending; the controller is then Idle
    exactly if no reply is playing and no other recognizer is still
    listening. *)
Theorem C8_failed_send_only_logs s q o :
  reachable s -> failed o = true ->
  (forall s',
     step (fetch_settles q o) s = Some s' ->
     s' = with_fetches (delete q) s /\
     isRecording s' = isRecording s /\ isPlaying s' = isPlaying s /\
     timeouts s' = timeouts s /\ recognizers s' = recognizers s /\
     audios s' = audios s /\ fetches s' = delete q (fetches s) /\
     (idle s' <-> idle s)) /\
  (forall r s1 s2,
     step (speech_end r) s = Some s1 ->
     step (fetch_settles q o) s1 = Some s2 ->
     isRecording s2 = false /\ isPlaying s2 = isPlaying s /\ timeouts s2 = ∅ /\
     (idle s2 <->
      isPlaying s = false /\ audios s = ∅ /\
      forall r' rc, recognizers s !! r' = Some rc -> r' = r \/ status rc = ended)).
Proof.
  intros Hreach Hf. split.
  - intros s' Hstep. apply (failed_fetch_is_noop _ _ _ _ Hf) in Hstep.
    subst s'. do 7 (split; [reflexivity|]).
    apply idle_with_fetches.
  - intros r s1 s2 Hend Hstep.
    apply (failed_fetch_is_noop _ _ _ _ Hf) in Hstep. subst s2.
    destruct (speech_end_clears r s s1 (reachable_timer_owned s Hreach) Hend)
      as (Hrec & Hplay & Htimers).
    destruct (speech_end_objects r s s1 Hend) as (Haud & rc0 & _ & Hrecs).
    change (isRecording s1 = false /\ isPlaying s1 = isPlaying s /\
            timeouts s1 = ∅ /\
            (idle (with_fetches (delete q) s1) <->
             isPlaying s = false /\ audios s = ∅ /\
             forall r' rc, recognizers s !! r' = Some rc ->
                           r' = r \/ status rc = ended)).
    split; [exact Hrec|]. split; [exact Hplay|]. split; [exact Htimers|].
    rewrite idle_with_fetches. unfold idle.
    rewrite Hrec, Hplay, Htimers, Haud, Hrecs, not_live_insert_ended.
    tauto.
Qed.

End TurnFacts.

(** ** The turn loop on concrete runs *)
Section TurnExamples.

Import Dispatcher Controller.

Lemma C5_witness :
  timeouts (after [click_toggle; speech_result 1 0 ["tell me"; " a joke"]]) !! 2
    = Some {| interimTranscript := "tell me a joke"; timeout_model := "" |} /\
  Forall (fun keyword =>
            includes (toLowerCase (join (take 3 (split "tell me a joke"))))
                     keyword = false)
         ["gpt4"; "gpt"; "perplexity"; "local mistral"; "local llama";
          "mixture"; "mistral"; "llama"] /\
  fetches (after [click_toggle; speech_result 1 0 ["tell me"; " a joke"];
                  timer_fires 2]) !! 3
    = Some {| body := JObj [("message", JStr "tell me a joke")];
              request_model := "" |} /\
  handle answering_send answering_tts (JObj [("message", JStr "tell me a joke")]) =
  ([console_log "tell me a joke" "gpt";
    backend (LangchainOpenAI_invoke None (SYSTEM_PREFIX +:+ "me a joke"));
    speech_create echo "Gpt here, Entropy measures disorder.";
    res_status_json 200
      (JObj [("data", JStr "SUQzBAAAAAAA"); ("contentType", JStr "audio/mp3");
             ("model", JStr "gpt")])], inr tt).
Proof.
  assert (Htm : timeouts (after [click_toggle;
                                 speech_result 1 0 ["tell me"; " a joke"]]) !! 2
                = Some {| interimTranscript := "tell me a joke";
                          timeout_model := "" |}) by (vm_compute; reflexivity).
  assert (Hdet : Forall (fun keyword =>
                           includes
                             (toLowerCase (join (take 3 (split "tell me a joke"))))
                             keyword = false)
                        ["gpt4"; "gpt"; "perplexity"; "local mistral";
                         "local llama"; "mixture"; "mistral"; "llama"])
    by (repeat constructor).
  split; [exact Htm|]. split; [exact Hdet|].
  split; [vm_compute; reflexivity|].
  destruct (C5_no_keyword_defaults_to_gpt answering_send answering_tts _ 2 _
              Htm Hdet) as (s' & _ & _ & _ & _ & _ & Hrun).
  apply Hrun; reflexivity.
Defined.

(** C5 as stated does not hold for whitespace-separated tokens: where a
    tab stands between the second and the third word, the first three such
    tokens, "a", "b" and "c", hold no keyword, one by one or joined; yet
    [split(" ")] takes "mistral" as the third token, the request that
    leaves on silence carries the model "mistral", and the response of the
    dispatcher has model "mistral", not "gpt". *)
Lemma C5_counterexample :
  take 3 (SpecReading.whitespaceTokens ("a b" +:+ SpecReading.tab +:+ "c mistral"))
    = ["a"; "b"; "c"] /\
  Forall (fun keyword => includes (toLowerCase (join ["a"; "b"; "c"])) keyword = false)
         modelKeywords /\
  Forall (fun token =>
            Forall (fun keyword => includes (toLowerCase token) keyword = false)
                   modelKeywords)
         ["a"; "b"; "c"] /\
  run [click_toggle;
       speech_result 1 0 ["a b" +:+ SpecReading.tab +:+ "c mistral"];
       timer_fires 2] init
    = Some (after [click_toggle;
                   speech_result 1 0 ["a b" +:+ SpecReading.tab +:+ "c mistral"];
                   timer_fires 2]) /\
  fetches (after [click_toggle;
                  speech_result 1 0 ["a b" +:+ SpecReading.tab +:+ "c mistral"];
                  timer_fires 2]) !! 3
    = Some {| body := JObj [("message",
                             JStr ("a b" +:+ SpecReading.tab +:+ "c mistral"));
                            ("model", JStr "mistral")];
              request_model := "" |} /\
  snd (handle answering_send answering_tts
         (JObj [("message", JStr ("a b" +:+ SpecReading.tab +:+ "c mistral"));
                ("model", JStr "mistral")])) = inr tt /\
  last (fst (handle answering_send answering_tts
               (JObj [("message", JStr ("a b" +:+ SpecReading.tab +:+ "c mistral"));
                      ("model", JStr "mistral")])))
    = Some (res_status_json 200
              (JObj [("data", JStr "SUQzBAAAAAAA"); ("contentType", JStr "audio/mp3");
                     ("model", JStr "mistral")])).
Proof.
  split; [vm_compute; reflexivity|].
  split; [repeat constructor|].
  split; [repeat constructor|].
  split; [vm_compute; reflexivity|].
  split; [vm_compute; reflexivity|].
  split; vm_compute; reflexivity.
Qed.

(** C7 as stated does not hold: a bubble is clicked, recording is started
    with the toggle while the request is in flight, and the reply arrives;
    both flags are then set.  The same happens without a second click when
    the reply overtakes the [end] event of the recognizer. *)
Lemma C7_counterexample :
  (run [click_bubble "gpt"; click_toggle; fetch_settles 1 audio_reply] init
   = Some (after [click_bubble "gpt"; click_toggle; fetch_settles 1 audio_reply]) /\
   isRecording (after [click_bubble "gpt"; click_toggle;
                       fetch_settles 1 audio_reply]) = true /\
   isPlaying (after [click_bubble "gpt"; click_toggle;
                     fetch_settles 1 audio_reply]) = true) /\
  (run [click_toggle; speech_result 1 0 ["hello"]; timer_fires 2;
        fetch_settles 3 audio_reply] init
   = Some (after [click_toggle; speech_result 1 0 ["hello"]; timer_fires 2;
                  fetch_settles 3 audio_reply]) /\
   isRecording (after [click_toggle; speech_result 1 0 ["hello"]; timer_fires 2;
                       fetch_settles 3 audio_reply]) = true /\
   isPlaying (after [click_toggle; speech_result 1 0 ["hello"]; timer_fires 2;
                     fetch_settles 3 audio_reply]) = true).
Proof.
  split; (split; [|split]); vm_compute; reflexivity.
Qed.

Lemma C7_witness :
  run [click_toggle; speech_result 1 0 ["tell me"; " a joke"]; timer_fires 2;
       speech_end 1; fetch_settles 3 audio_reply; audio_ended 4] init
  = Some (after [click_toggle; speech_result 1 0 ["tell me"; " a joke"];
                 timer_fires 2; speech_end 1; fetch_settles 3 audio_reply;
                 audio_ended 4]) /\
  quiet_run [click_toggle; speech_result 1 0 ["tell me"; " a joke"]; timer_fires 2;
             speech_end 1; fetch_settles 3 audio_reply; audio_ended 4] init
  = true /\
  exclusive (after [click_toggle; speech_result 1 0 ["tell me"; " a joke"];
                    timer_fires 2; speech_end 1; fetch_settles 3 audio_reply;
                    audio_ended 4]).
Proof.
  assert (Hrun : run [click_toggle; speech_result 1 0 ["tell me"; " a joke"];
                      timer_fires 2; speech_end 1; fetch_settles 3 audio_reply;
                      audio_ended 4] init
                 = Some (after [click_toggle; speech_result 1 0 ["tell me"; " a joke"];
                                timer_fires 2; speech_end 1;
                                fetch_settles 3 audio_reply; audio_ended 4]))
    by (vm_compute; reflexivity).
  assert (Hq : quiet_run [click_toggle; speech_result 1 0 ["tell me"; " a joke"];
                          timer_fires 2; speech_end 1; fetch_settles 3 audio_reply;
                          audio_ended 4] init = true)
    by (vm_compute; reflexivity).
  split; [exact Hrun|]. split; [exact Hq|].
  exact (proj1 C7_flags_exclusive_while_quiet _ _ Hrun Hq).
Defined.

(** C8 as stated does not hold: when recording was started while the
    request was in flight, the failure leaves the controller listening
    with its silence timer pending; and after a manual stop, a failure that
    comes before the [end] event of the recognizer finds [isRecording] still
    set and the timer of the last result still pending. *)
Lemma C8_counterexample :
  (run [click_bubble "gpt"; click_toggle; speech_result 2 0 ["hello"];
        fetch_settles 1 rejected] init
   = Some (after [click_bubble "gpt"; click_toggle; speech_result 2 0 ["hello"];
                  fetch_settles 1 rejected]) /\
   isRecording (after [click_bubble "gpt"; click_toggle;
                       speech_result 2 0 ["hello"]; fetch_settles 1 rejected])
   = true /\
   timeouts (after [click_bubble "gpt"; click_toggle;
                    speech_result 2 0 ["hello"]; fetch_settles 1 rejected]) !! 3
   = Some {| interimTranscript := "hello"; timeout_model := "gpt" |}) /\
  (run [click_toggle; speech_result 1 0 ["hello"]; click_toggle;
        fetch_settles 3 rejected] init
   = Some (after [click_toggle; speech_result 1 0 ["hello"]; click_toggle;
                  fetch_settles 3 rejected]) /\
   isRecording (after [click_toggle; speech_result 1 0 ["hello"]; click_toggle;
                       fetch_settles 3 rejected]) = true /\
   timeouts (after [click_toggle; speech_result 1 0 ["hello"]; click_toggle;
                    fetch_settles 3 rejected]) !! 2
   = Some {| interimTranscript := "hello"; timeout_model := "" |}).
Proof.
  split; (split; [|split]); vm_compute; reflexivity.
Qed.

Lemma C8_witness :
  reachable (after [click_toggle; speech_result 1 0 ["tell me"; " a joke"];
                    timer_fires 2]) /\
  failed rejected = true /\
  step (speech_end 1)
       (after [click_toggle; speech_result 1 0 ["tell me"; " a joke"];
               timer_fires 2])
  = Some (after [click_toggle; speech_result 1 0 ["tell me"; " a joke"];
                 timer_fires 2; speech_end 1]) /\
  step (fetch_settles 3 rejected)
       (after [click_toggle; speech_result 1 0 ["tell me"; " a joke"];
               timer_fires 2; speech_end 1])
  = Some (after [click_toggle; speech_result 1 0 ["tell me"; " a joke"];
                 timer_fires 2; speech_end 1; fetch_settles 3 rejected]) /\
  idle (after [click_toggle; speech_result 1 0 ["tell me"; " a joke"];
               timer_fires 2; speech_end 1; fetch_settles 3 rejected]).
Proof.
  assert (Hreach : reachable (after [click_toggle;
                                     speech_result 1 0 ["tell me"; " a joke"];
                                     timer_fires 2])).
  { exists [click_toggle; speech_result 1 0 ["tell me"; " a joke"]; timer_fires 2].
    vm_compute. reflexivity. }
  assert (Hend : step (speech_end 1)
                   (after [click_toggle; speech_result 1 0 ["tell me"; " a joke"];
                           timer_fires 2])
                 = Some (after [click_toggle;
                                speech_result 1 0 ["tell me"; " a joke"];
                                timer_fires 2; speech_end 1]))
    by (vm_compute; reflexivity).
  assert (Hfail : step (fetch_settles 3 rejected)
                    (after [click_toggle; speech_result 1 0 ["tell me"; " a joke"];
                            timer_fires 2; speech_end 1])
                  = Some (after [click_toggle;
                                 speech_result 1 0 ["tell me"; " a joke"];
                                 timer_fires 2; speech_end 1;
                                 fetch_settles 3 rejected]))
    by (vm_compute; reflexivity).
  split; [exact Hreach|]. split; [reflexivity|].
  split; [exact Hend|]. split; [exact Hfail|].
  destruct (C8_failed_send_only_logs _ 3 rejected Hreach eq_refl) as [_ Hseq].
  destruct (Hseq 1 _ _ Hend Hfail) as (_ & _ & _ & Hidle).
  apply Hidle. split; [vm_compute; reflexivity|]. split; [vm_compute; reflexivity|].
  intros r' rc Hl. destruct (decide (r' = 1)) as [->|Hne]; [now left|].
  exfalso.
  assert (Hrecs : recognizers (after [click_toggle;
                                      speech_result 1 0 ["tell me"; " a joke"];
                                      timer_fires 2])
                  = {[1 := {| status := stopping; rec_model := "" |}]})
    by (vm_compute; reflexivity).
  rewrite Hrecs, lookup_singleton_ne in Hl by congruence. discriminate.
Defined.

End TurnExamples.

(** * Further properties of the code *)

(** ** The dispatcher *)
Section DispatcherMore.

Import Dispatcher Page.

Variable send : backendCall -> option string.
Variable tts : VoiceType -> string -> option string.

(** X1.  Whatever the handler sends is a complete success response: a 200
    whose body has contentType "audio/mp3", a model of the [switch], and as
    data what the speech client returned for the introduced reply of the
    backend; and the handler then resolves. *)
Theorem response_is_complete body status b :
  In (res_status_json status b) (fst (handle send tts body)) ->
  exists message modelName c gptMessage base64Audio,
    requestSchema_parse body = inr (message, modelName) /\
    In modelName supportedModels /\
    route modelName (buildPrompt message) = Some c /\
    send c = Some gptMessage /\
    tts (voice modelName) (introMessage modelName +:+ gptMessage)
      = Some base64Audio /\
    status = 200%Z /\
    b = toJson {| data := base64Audio; contentType := "audio/mp3";
                  model := modelName |} /\
    snd (handle send tts body) = inr tt.
Proof.
  rewrite handle_unfold.
  destruct (requestSchema_parse body) as [e|[message modelName]] eqn:Hp.
  { simpl. intros [H|[]]. discriminate. }
  destruct (route modelName (buildPrompt message)) as [c|] eqn:Hr.
  2:{ simpl. intros [H|[H|[]]]; discriminate. }
  destruct (send c) as [gptMessage|] eqn:Hs.
  2:{ simpl. intros [H|[H|[H|[]]]]; discriminate. }
  cbv zeta. destruct (tts _ _) as [base64Audio|] eqn:Ht; simpl.
  2:{ intros H. repeat (destruct H as [H|H]; [discriminate|]). contradiction. }
  intros [H|[H|[H|[H|[]]]]]; try discriminate. injection H as <- <-.
  exists message, modelName, c, gptMessage, base64Audio.
  split; [reflexivity|]. split.
  { apply (route_supported modelName (buildPrompt message)). congruence. }
  split; [exact Hr|]. split; [exact Hs|]. split; [exact Ht|].
  split; [reflexivity|]. split; reflexivity.
Qed.

(** X2.  One turn makes at most one backend request, at most one speech
    request and at most one response, and speech is only asked for after a
    backend request that answered: its input is that answer behind the
    introduction, in the voice of the model. *)
Theorem effects_of_one_turn body :
  count is_backend (fst (handle send tts body)) <= 1 /\
  count is_speech (fst (handle send tts body)) <= count is_backend (fst (handle send tts body)) /\
  count is_response (fst (handle send tts body)) <= count is_speech (fst (handle send tts body)) /\
  (forall v input,
     In (speech_create v input) (fst (handle send tts body)) ->
     exists message modelName c gptMessage,
       requestSchema_parse body = inr (message, modelName) /\
       In (backend c) (fst (handle send tts body)) /\
       send c = Some gptMessage /\
       v = voice modelName /\ input = introMessage modelName +:+ gptMessage).
Proof.
  rewrite handle_unfold.
  destruct (requestSchema_parse body) as [e|[message modelName]] eqn:Hp.
  { repeat split; try (cbn; lia). intros v input [H|[]]. discriminate. }
  destruct (route modelName (buildPrompt message)) as [c|] eqn:Hr.
  2:{ repeat split; try (cbn; lia). intros v input [H|[H|[]]]; discriminate. }
  destruct (send c) as [gptMessage|] eqn:Hs.
  2:{ repeat split; try (cbn; lia).
      intros v input [H|[H|[H|[]]]]; discriminate. }
  cbv zeta. destruct (tts _ _) as [base64Audio|] eqn:Ht.
  - repeat split; try (cbn; lia).
    intros v input [H|[H|[H|[H|[]]]]]; try discriminate. injection H as <- <-.
    exists message, modelName, c, gptMessage. cbn. auto 10.
  - repeat split; try (cbn; lia).
    intros v input [H|[H|[H|[H|[H|[]]]]]]; try discriminate. injection H as <- <-.
    exists message, modelName, c, gptMessage. cbn. auto 10.
Qed.

(** X3.  The voice follows the backend: a routed model is spoken with
    "fable" exactly when it goes to the local inference server, and with
    "echo" otherwise. *)
Theorem voice_follows_backend modelName prompt c :
  route modelName prompt = Some c ->
  (voice modelName = fable <-> exists ollamaModel, c = Ollama_invoke ollamaModel prompt) /\
  (voice modelName = echo <-> ~ exists ollamaModel, c = Ollama_invoke ollamaModel prompt).
Proof.
  intros Hr.
  assert (Hsup : In modelName supportedModels)
    by (apply (route_supported modelName prompt); congruence).
  unfold supportedModels in Hsup. simpl in Hsup.
  repeat (destruct Hsup as [<-|Hsup]); try contradiction; injection Hr as <-;
    (split;
     [ split;
       [ intros H; first [discriminate H | eexists; reflexivity]
       | intros [om H]; first [discriminate H | reflexivity] ]
     | split;
       [ intros H; first [discriminate H | intros [om H']; discriminate H']
       | intros H; first [reflexivity | exfalso; apply H; eexists; reflexivity] ] ]).
Qed.

(** X16.  The handler has two outcomes and no third: it resolves, having
    sent exactly one response, or it rejects with the generic error,
    having sent none and logged the cause last. *)
Theorem handler_resolves_or_rejects body :
  (snd (handle send tts body) = inr tt /\
   count is_response (fst (handle send tts body)) = 1) \/
  (snd (handle send tts body) = inl GENERIC /\
   count is_response (fst (handle send tts body)) = 0 /\
   exists e, last (fst (handle send tts body))
             = Some (console_error "Error processing request:" e)).
Proof.
  rewrite handle_unfold.
  destruct (requestSchema_parse body) as [e|[message modelName]].
  { right. cbn. eauto. }
  destruct (route _ _) as [c|]; [|right; cbn; eauto].
  destruct (send c) as [gptMessage|]; [|right; cbn; eauto].
  cbv zeta. destruct (tts _ _) as [base64Audio|].
  - left. split; reflexivity.
  - right. cbn. eauto.
Qed.

End DispatcherMore.

(** ** Prompts and keywords *)
Section PromptMore.

Import Dispatcher Controller Page.

Lemma split_single w : includes w " " = false -> split w = [w].
Proof.
  induction w as [|c r IH]; [reflexivity|].
  rewrite includes_space_cons. intros [Hc Hr]%orb_false_iff.
  cbn [split]. rewrite Hc, (IH Hr). reflexivity.
Qed.

Lemma split_app_space w rest :
  includes w " " = false -> split (w +:+ " " +:+ rest) = w :: split rest.
Proof.
  induction w as [|c r IH]; [reflexivity|].
  rewrite includes_space_cons. intros [Hc Hr]%orb_false_iff.
  change (String c r +:+ " " +:+ rest) with (String c (r +:+ " " +:+ rest)).
  cbn [split]. rewrite Hc, (IH Hr). reflexivity.
Qed.

Lemma includes_lower_space w : includes (toLowerCase w) " " = includes w " ".
Proof.
  induction w as [|c r IH]; [reflexivity|].
  cbn [toLowerCase]. now rewrite !includes_space_cons, lowerChar_space, IH.
Qed.

Lemma lowerChar_idem c : lowerChar (lowerChar c) = lowerChar c.
Proof. destruct c as [[] [] [] [] [] [] [] []]; reflexivity. Qed.

Lemma toLowerCase_idem s : toLowerCase (toLowerCase s) = toLowerCase s.
Proof. induction s as [|c r IH]; simpl; [reflexivity|]. now rewrite lowerChar_idem, IH. Qed.

(** X4.  A message without a space leaves nothing to ask: its prompt is the
    bare instruction.  Where a space-free word is followed by a space and
    text of ASCII characters, the prompt is the instruction followed by
    that text with its letters A-Z lowered; and the prompt of a message of
    ASCII characters does not change when the message is lowercased
    first. *)
Theorem prompt_keeps_what_follows_the_first_space :
  (forall message,
     includes message " " = false -> buildPrompt message = SYSTEM_PREFIX) /\
  (forall w rest,
     includes w " " = false -> isAscii rest = true ->
     buildPrompt (w +:+ " " +:+ rest) = SYSTEM_PREFIX +:+ toLowerCase rest) /\
  (forall message,
     isAscii message = true ->
     buildPrompt (toLowerCase message) = buildPrompt message).
Proof.
  split; [|split].
  - intros message H. unfold buildPrompt, slice_from.
    rewrite split_single by now rewrite includes_lower_space.
    reflexivity.
  - intros w rest H _. unfold buildPrompt, slice_from.
    rewrite !toLowerCase_app.
    change (toLowerCase " ") with " ".
    rewrite split_app_space by now rewrite includes_lower_space.
    cbn [skipn]. now rewrite drop_0, join_split.
  - intros message _. unfold buildPrompt. now rewrite toLowerCase_idem.
Qed.

Lemma head3_lower t : head3 (toLowerCase t) = head3 t.
Proof.
  unfold head3, slice_to.
  rewrite toLowerCase_split, <- fmap_take, <- toLowerCase_join.
  apply toLowerCase_idem.
Qed.

Lemma keywords_supported k : In k modelKeywords -> In k supportedModels.
Proof.
  unfold modelKeywords, supportedModels. simpl.
  intros H. repeat (destruct H as [<-|H]; [auto 10|]). contradiction.
Qed.

Lemma detect_in_keywords t k : detectModel t = Some k -> In k modelKeywords.
Proof.
  intros H. apply find_first in H as (pre & post & E & _).
  rewrite E. apply in_or_app. right. now left.
Qed.

(** X5.  Keyword detection does not depend on case, and what it selects is
    a keyword the lowercased first three tokens contain and a model the
    dispatcher supports. *)
Theorem detection_is_caseless_and_supported t :
  detectModel (toLowerCase t) = detectModel t /\
  (forall k,
     detectModel t = Some k ->
     includes (head3 t) k = true /\ In k modelKeywords /\ In k supportedModels).
Proof.
  split.
  - unfold detectModel. now rewrite head3_lower.
  - intros k H. pose proof (detect_in_keywords t k H) as Hk.
    split; [|split; [exact Hk | now apply keywords_supported]].
    now apply find_first in H as (pre & post & _ & Hinc & _).
Qed.

End PromptMore.

(** ** The controller and the dispatcher together *)

(** Read the fields of a state built by the callbacks. *)
Ltac st_simpl :=
  unfold Controller.handleToggleRecording, Controller.bubbleClicked,
    Controller.silenceElapsed, Controller.recognitionEnded,
    Controller.audioEnded, Controller.fetchSettled, Controller.handleResult,
    Controller.sendToBackend, Controller.startRecording;
  rewrite ?stopRecording_eq, ?clearSilenceTimer_eq;
  cbn [Controller.isRecording Controller.isPlaying Controller.transcript
       Controller.model Controller.response Controller.recognitionRef
       Controller.silenceTimerRef Controller.recognizers Controller.timeouts
       Controller.fetches Controller.audios Controller.fresh
       Controller.setIsRecording Controller.setIsPlaying
       Controller.setTranscript Controller.setModel Controller.setResponse
       Controller.with_recognizers Controller.with_timeouts
       Controller.with_fetches Controller.with_audios Controller.alloc].

Ltac st_cases :=
  repeat (st_simpl;
          match goal with
          | |- context [match ?x with _ => _ end] => destruct x eqn:?
          end);
  st_simpl.

Ltac st_inv H :=
  unfold Controller.step in H;
  repeat match type of H with
         | context [match ?x with _ => _ end] => destruct x eqn:?
         end;
  try discriminate H; injection H as <-.

Section TurnMore.

Import Dispatcher Controller Page.

Lemma requestBody_parse message modelKeyword :
  requestSchema_parse (requestBody message modelKeyword)
  = inr (message, default "gpt" modelKeyword).
Proof. destruct modelKeyword; reflexivity. Qed.

Lemma bubbles_supported m : m ∈ bubbles -> In m supportedModels.
Proof.
  intros H%list_elem_of_In. unfold bubbles, supportedModels in *. simpl in *.
  repeat (destruct H as [<-|H]; [auto 10|]). contradiction.
Qed.

Lemma keyword_truthy k : In k modelKeywords -> truthy k = true.
Proof.
  unfold modelKeywords. simpl. intros H.
  repeat (destruct H as [<-|H]; [reflexivity|]). contradiction.
Qed.

Lemma acceptable_request message modelKeyword env :
  In (default "gpt" modelKeyword) supportedModels ->
  acceptable {| body := requestBody message modelKeyword; request_model := env |}.
Proof.
  intros H. exists message, (default "gpt" modelKeyword).
  split; [apply requestBody_parse | exact H].
Qed.

Lemma gpt_supported : In "gpt" supportedModels.
Proof. now left. Qed.

Lemma detect_default_supported t :
  In (default "gpt" (detectModel t)) supportedModels.
Proof.
  destruct (detectModel t) as [k|] eqn:Hd; [|apply gpt_supported].
  eapply keywords_supported, detect_in_keywords; eassumption.
Qed.

Lemma step_acceptable e s s' :
  step e s = Some s' ->
  (forall q rq, fetches s !! q = Some rq -> acceptable rq) ->
  forall q rq, fetches s' !! q = Some rq -> acceptable rq.
Proof.
  intros Hstep Hinv q rq.
  destruct e as [|m|r idx results|r|t|q0 o|a]; st_inv Hstep; st_cases; intros Hq;
    try (now apply (Hinv q rq));
    try (apply lookup_delete_Some in Hq as [_ Hq]; now apply (Hinv q rq));
    apply lookup_insert_Some in Hq as [[_ <-]|[_ Hq]];
    try (now apply (Hinv q rq));
    apply acceptable_request; cbn [default id];
    first
      [ apply gpt_supported
      | apply detect_default_supported
      | apply bubbles_supported;
        match goal with
        | H : bool_decide (_ ∈ bubbles) = true |- _ =>
            apply bool_decide_eq_true in H; exact H
        end ].
Qed.

Lemma run_acceptable evs s s' :
  run evs s = Some s' ->
  (forall q rq, fetches s !! q = Some rq -> acceptable rq) ->
  forall q rq, fetches s' !! q = Some rq -> acceptable rq.
Proof.
  revert s. induction evs as [|e evs IH]; intros s Hrun Hinv; simpl in *.
  - now injection Hrun as <-.
  - destruct (step e s) as [s1|] eqn:Hstep; [|discriminate].
    eapply IH; eauto using step_acceptable.
Qed.

(** X6.  The controller only sends what the dispatcher takes: in every
    reachable state each request in flight passes the schema with a model
    of the [switch], so its turn gets as far as a backend request,
    whatever the collaborators then do. *)
Theorem requests_in_flight_reach_a_backend s q rq :
  reachable s -> fetches s !! q = Some rq ->
  acceptable rq /\
  forall send tts, exists c, In (backend c) (fst (handle send tts (body rq))).
Proof.
  intros [evs Hrun] Hq.
  assert (Hacc : acceptable rq).
  { eapply run_acceptable; eauto. intros q' rq' H. simpl in H.
    now rewrite lookup_empty in H. }
  split; [exact Hacc|]. intros send tts.
  destruct Hacc as (message & modelName & Hp & Hsup).
  apply (route_supported modelName (buildPrompt message)) in Hsup.
  destruct (route modelName (buildPrompt message)) as [c|] eqn:Hr; [|congruence].
  exists c. rewrite handle_unfold, Hp, Hr.
  destruct (send c); cbv zeta; [destruct (tts _ _)|]; simpl; auto.
Qed.

(** X7.  A click on a bubble sends "Use <model> model" with that model,
    shows the model at once, and the dispatcher, having dropped "use",
    asks the backend of that model about "<model> model". *)
Theorem bubble_click_asks_about_the_model s m :
  m ∈ bubbles ->
  exists s',
    step (click_bubble m) s = Some s' /\
    fetches s' !! fresh s =
      Some {| body := JObj [("message", JStr ("Use " +:+ m +:+ " model"));
                            ("model", JStr m)];
              request_model := model s |} /\
    model s' = m /\
    requestSchema_parse (JObj [("message", JStr ("Use " +:+ m +:+ " model"));
                               ("model", JStr m)])
      = inr ("Use " +:+ m +:+ " model", m) /\
    In m supportedModels /\
    buildPrompt ("Use " +:+ m +:+ " model") = SYSTEM_PREFIX +:+ m +:+ " model".
Proof.
  intros Hm. eexists. split.
  { unfold step. rewrite (bool_decide_eq_true_2 _ Hm). reflexivity. }
  split; [unfold bubbleClicked; rewrite sendToBackend_fetches; apply lookup_insert_eq|].
  pose proof (bubbles_supported m Hm) as Hsup.
  split; [|split; [reflexivity | split; [exact Hsup|]]].
  - assert (Ht : truthy m = true).
    { apply list_elem_of_In in Hm. unfold bubbles in Hm. simpl in Hm.
      repeat (destruct Hm as [<-|Hm]; [reflexivity|]). contradiction. }
    unfold bubbleClicked, sendToBackend. cbv beta iota. rewrite Ht.
    st_simpl. reflexivity.
  - apply list_elem_of_In in Hm. unfold bubbles in Hm. simpl in Hm.
    repeat (destruct Hm as [<-|Hm]; [reflexivity|]). contradiction.
Qed.

(** X8.  Stop on the toggle sends whatever transcript there is, the empty
    one too, without a model; the step leaves [isRecording] set and
    [isPlaying], the transcript, the pending timers and [silenceTimerRef]
    as they are.  During playback, with nothing recording, the toggle does
    nothing. *)
Theorem toggle_stop_sends_the_transcript s :
  (isRecording s = true ->
   exists s',
     step click_toggle s = Some s' /\
     fetches s' !! fresh s =
       Some {| body := JObj [("message", JStr (transcript s))];
               request_model := model s |} /\
     isRecording s' = true /\ isPlaying s' = isPlaying s /\
     transcript s' = transcript s /\
     timeouts s' = timeouts s /\ silenceTimerRef s' = silenceTimerRef s) /\
  (isRecording s = false -> isPlaying s = true -> step click_toggle s = Some s).
Proof.
  split.
  - intros Hrec. eexists. split; [reflexivity|].
    unfold handleToggleRecording. rewrite Hrec. cbn [negb andb].
    split.
    { rewrite sendToBackend_fetches, fetches_stopRecording, fresh_stopRecording.
      apply lookup_insert_eq. }
    st_cases; auto.
  - intros Hrec Hplay. unfold step, handleToggleRecording.
    now rewrite Hrec, Hplay.
Qed.

(** Under one owner, clearing the timer of the ref leaves none. *)
Lemma owned_timer_cleared s :
  timer_owned s ->
  match silenceTimerRef s with
  | Some t => delete t (timeouts s)
  | None => timeouts s
  end = ∅.
Proof.
  intros Hown. apply map_empty. intros t.
  destruct (timeouts s !! t) as [x|] eqn:Ht.
  - assert (Hs : is_Some (timeouts s !! t)) by (rewrite Ht; eauto).
    apply Hown in Hs. rewrite Hs. apply lookup_delete_eq.
  - destruct (silenceTimerRef s); [|exact Ht].
    apply lookup_delete_None. now right.
Qed.

(** X9.  Each speech result restarts the silence timer: afterwards exactly
    one timer is pending, the new one, it carries the text of the results
    from [resultIndex] on, which is also the transcript shown, and no
    earlier timer can fire any more.  A [resultIndex] past the results
    gives the empty transcript, and the timer is set all the same. *)
Theorem each_result_restarts_the_timer s r resultIndex results s' :
  reachable s -> step (speech_result r resultIndex results) s = Some s' ->
  exists env,
    timeouts s' =
      {[ fresh s :=
           {| interimTranscript :=
                foldl (fun acc t => acc +:+ t) "" (drop resultIndex results);
              timeout_model := env |} ]} /\
    silenceTimerRef s' = Some (fresh s) /\
    transcript s' = foldl (fun acc t => acc +:+ t) "" (drop resultIndex results) /\
    (forall t, t <> fresh s -> step (timer_fires t) s' = None) /\
    (length results <= resultIndex -> transcript s' = "").
Proof.
  intros Hreach Hstep.
  pose proof (owned_timer_cleared s (reachable_timer_owned s Hreach)) as Hclear.
  assert (Hshape : exists env,
             timeouts s' =
               {[ fresh s :=
                    {| interimTranscript :=
                         foldl (fun acc t => acc +:+ t) ""
                               (drop resultIndex results);
                       timeout_model := env |} ]} /\
             silenceTimerRef s' = Some (fresh s) /\
             transcript s' =
               foldl (fun acc t => acc +:+ t) "" (drop resultIndex results)).
  { st_inv Hstep; eexists; st_simpl; rewrite Hclear, insert_empty; auto. }
  destruct Hshape as (env & Htimers & Href & Htr).
  exists env. split; [exact Htimers|]. split; [exact Href|]. split; [exact Htr|].
  split.
  - intros t Hne. unfold step. rewrite Htimers, lookup_singleton_ne by congruence.
    reflexivity.
  - intros Hlen. rewrite Htr, drop_ge by exact Hlen. reflexivity.
Qed.

Lemma step_playing_has_audio e s s' :
  step e s = Some s' ->
  (isPlaying s = true -> exists a au, audios s !! a = Some au) ->
  isPlaying s' = true -> exists a au, audios s' !! a = Some au.
Proof.
  intros Hstep Hinv.
  destruct e as [|m|r idx results|r|t|q o|a]; st_inv Hstep; st_cases;
    intros Hplay;
    first [ now apply Hinv
          | discriminate
          | eexists _, _; apply lookup_insert_eq ].
Qed.

(** X10.  [isPlaying] is set only while an audio element plays: in every
    reachable state with [isPlaying], some audio has started and not yet
    ended. *)
Theorem playing_flag_has_an_audio s :
  reachable s -> isPlaying s = true -> exists a au, audios s !! a = Some au.
Proof.
  intros [evs Hrun]. revert Hrun.
  assert (Hgen : forall s0,
             (isPlaying s0 = true -> exists a au, audios s0 !! a = Some au) ->
             run evs s0 = Some s ->
             isPlaying s = true -> exists a au, audios s !! a = Some au).
  { induction evs as [|e evs IH]; intros s0 Hinv Hrun; simpl in Hrun.
    - now injection Hrun as <-.
    - destruct (step e s0) as [s1|] eqn:Hstep; [|discriminate].
      apply (IH s1); [|exact Hrun].
      eapply step_playing_has_audio; eassumption. }
  apply Hgen. discriminate.
Qed.

(** X11.  What the page shows as model once the silence timer has fired:
    the detected keyword; without one, "gpt" if the closure that set the
    timer had seen a model, and "gpt-3.5" if it had seen none, because
    [sendToBackend] then overwrites the "gpt" just set.  The transcript
    shown is cleared. *)
Theorem model_shown_after_silence s t cb s' :
  timeouts s !! t = Some cb -> step (timer_fires t) s = Some s' ->
  model s' =
    match detectModel (interimTranscript cb) with
    | Some k => k
    | None => if truthy (timeout_model cb) then "gpt" else "gpt-3.5"
    end /\
  transcript s' = "".
Proof.
  intros Ht Hstep. unfold step in Hstep. rewrite Ht in Hstep.
  injection Hstep as <-. split; [|reflexivity].
  unfold silenceElapsed, sendToBackend.
  destruct (detectModel (interimTranscript cb)) as [k|] eqn:Hd; cbv beta iota.
  - rewrite (keyword_truthy k (detect_in_keywords _ _ Hd)). st_simpl. reflexivity.
  - destruct (truthy (timeout_model cb)); st_simpl; reflexivity.
Qed.

(** X12.  The pulse does not single out a model: [getModelClassName]
    compares its argument with itself, so every bubble gets the same
    class, the pulse exactly while [isPlaying]. *)
Theorem every_bubble_pulses_while_playing s m1 m2 :
  getModelClassName m1 s = getModelClassName m2 s /\
  (getModelClassName m1 s = " prominent-pulse" <-> isPlaying s = true) /\
  (getModelClassName m1 s = "" <-> isPlaying s = false).
Proof.
  unfold getModelClassName. rewrite !String.eqb_refl.
  destruct (isPlaying s); cbn [andb]; repeat split; congruence.
Qed.

Lemma response_shape send tts body status b :
  In (res_status_json status b) (fst (handle send tts body)) ->
  exists base64Audio modelName,
    status = 200%Z /\
    b = toJson {| data := base64Audio; contentType := "audio/mp3";
                  Dispatcher.model := modelName |}.
Proof.
  rewrite handle_unfold.
  destruct (requestSchema_parse body) as [e|[message modelName]].
  { simpl. intros [H|[]]. discriminate. }
  destruct (route _ _) as [c|].
  2:{ simpl. intros [H|[H|[]]]; discriminate. }
  destruct (send c) as [gptMessage|].
  2:{ simpl. intros [H|[H|[H|[]]]]; discriminate. }
  cbv zeta. destruct (tts _ _) as [base64Audio|]; simpl.
  2:{ intros H. repeat (destruct H as [H|H]; [discriminate|]). contradiction. }
  intros [H|[H|[H|[H|[]]]]]; try discriminate. injection H as <- <-. eauto.
Qed.

(** X13.  What the dispatcher sends, the controller plays, unless the audio
    is empty: a response with non-empty [data] sets [isPlaying] and starts
    an audio element; one with empty [data] passes the status check and is
    then dropped without a trace, so nothing plays and listening is not
    resumed. *)
Theorem dispatcher_reply_plays_unless_empty send tts body status b :
  In (res_status_json status b) (fst (handle send tts body)) ->
  exists r,
    b = toJson r /\ response_ok status = true /\
    plays (responded status (Some (replyOf r))) = truthy (data r) /\
    (forall env s,
       data r = "" ->
       fetchSettled env (responded status (Some (replyOf r))) s = s) /\
    (forall env s,
       data r <> "" ->
       isPlaying (fetchSettled env (responded status (Some (replyOf r))) s) = true /\
       audios (fetchSettled env (responded status (Some (replyOf r))) s) !! fresh s
       = Some {| reply := replyOf r; audio_model := env |}).
Proof.
  intros Hin.
  destruct (response_shape send tts body status b Hin) as (a & m & -> & ->).
  eexists. split; [reflexivity|]. split; [reflexivity|].
  unfold plays, fetchSettled, replyOf.
  cbn [p_data p_contentType data contentType Dispatcher.model response_ok negb
       Z.leb Z.compare Pos.compare Pos.compare_cont andb].
  rewrite (bool_decide_eq_true_2 (Some "audio/mp3" = Some "audio/mp3") eq_refl),
    andb_true_r.
  split; [reflexivity|]. split.
  - intros env s ->. reflexivity.
  - intros env s Hne. destruct a as [|c a']; [congruence|].
    cbn [truthy]. st_simpl. split; [reflexivity | apply lookup_insert_eq].
Qed.

(** X14.  A reply that plays, then the end of its playback: [isPlaying] is
    set and cleared again, a new recognizer is started and becomes the
    current one, the transcript is empty, and the model shown is the one
    the reply names, if it names one.  The new recognizer's callbacks are
    those of the render that sent the request. *)
Theorem playable_reply_then_playback_end s q rq status d :
  fetches s !! q = Some rq -> plays (responded status (Some d)) = true ->
  exists s1 s2,
    step (fetch_settles q (responded status (Some d))) s = Some s1 /\
    isPlaying s1 = true /\ isRecording s1 = isRecording s /\
    step (audio_ended (fresh s)) s1 = Some s2 /\
    isPlaying s2 = false /\ isRecording s2 = true /\ transcript s2 = "" /\
    recognitionRef s2 = Some (S (fresh s)) /\
    recognizers s2 !! S (fresh s)
      = Some {| status := started; rec_model := request_model rq |} /\
    model s2 = match p_model d with
               | Some m => if truthy m then m else model s
               | None => model s
               end.
Proof.
  intros Hq Hplays. cbn [plays] in Hplays.
  apply andb_true_iff in Hplays as [Hok Hbody].
  eexists _, _. split.
  { unfold step. rewrite Hq. unfold fetchSettled. rewrite Hok, Hbody.
    cbn [negb]. reflexivity. }
  split; [reflexivity|]. split; [reflexivity|]. split.
  { unfold step. st_simpl. rewrite lookup_insert_eq. reflexivity. }
  st_simpl. cbn [reply audio_model].
  destruct (p_model d) as [m|]; [destruct (truthy m)|];
    st_simpl; repeat split; apply lookup_insert_eq.
Qed.

Ltac below_fresh H :=
  repeat first
    [ rewrite lookup_alter_is_Some in H
    | apply lookup_delete_is_Some in H as [_ H]
    | apply lookup_insert_is_Some' in H as [<-|H]; [lia|] ].

Lemma step_ids_below_fresh e s s' :
  step e s = Some s' -> ids_below_fresh s -> ids_below_fresh s'.
Proof.
  unfold ids_below_fresh. intros Hstep (Hr & Ht & Hq & Ha).
  destruct e as [|m|r idx results|r|t|q o|a]; st_inv Hstep; st_cases;
    try match goal with
        | H : recognizers s !! ?k = Some _ |- _ =>
            assert (k < fresh s) by (apply Hr; rewrite H; eauto)
        end;
    (split; [|split; [|split]]); intros x Hx; below_fresh Hx;
    first [ apply Hr in Hx | apply Ht in Hx | apply Hq in Hx | apply Ha in Hx ];
    lia.
Qed.

Lemma reachable_ids_below_fresh s : reachable s -> ids_below_fresh s.
Proof.
  intros [evs Hrun]. revert Hrun.
  assert (Hgen : forall s0, ids_below_fresh s0 -> run evs s0 = Some s ->
                            ids_below_fresh s).
  { induction evs as [|e evs IH]; intros s0 Hinv Hrun; simpl in Hrun.
    - now injection Hrun as <-.
    - destruct (step e s0) as [s1|] eqn:Hstep; [|discriminate].
      apply (IH s1); [|exact Hrun]. eapply step_ids_below_fresh; eassumption. }
  apply Hgen. repeat split; intros x [y Hy]; simpl in Hy;
    now rewrite lookup_empty in Hy.
Qed.

(** X15.  [startRecording] never stops the recognizer it replaces.  When
    playback ends, or Start is clicked, every recognizer there was is left
    as it was, listening ones included, while [recognitionRef] moves on to
    the new one; so [stopRecording] no longer reaches the old one. *)
Theorem restart_leaves_recognizers_running s r rc :
  reachable s -> recognizers s !! r = Some rc ->
  (forall a s',
     step (audio_ended a) s = Some s' ->
     recognizers s' !! r = Some rc /\
     recognitionRef s' = Some (fresh s) /\ r <> fresh s /\
     recognizers (stopRecording s') !! r = Some rc) /\
  (isRecording s = false -> isPlaying s = false ->
   forall s',
     step click_toggle s = Some s' ->
     recognizers s' !! r = Some rc /\
     recognitionRef s' = Some (fresh s) /\ r <> fresh s /\
     recognizers (stopRecording s') !! r = Some rc).
Proof.
  intros Hreach Hrc.
  assert (Hne : r <> fresh s).
  { destruct (reachable_ids_below_fresh s Hreach) as (Hr & _).
    assert (r < fresh s) by (apply Hr; rewrite Hrc; eauto). lia. }
  split.
  - intros a s' Hstep. st_inv Hstep.
    st_cases; (split; [|split; [reflexivity|split; [exact Hne|]]]);
      rewrite ?lookup_alter_ne by congruence;
      rewrite lookup_insert_ne by congruence; exact Hrc.
  - intros Hrec Hplay s' Hstep. st_inv Hstep.
    unfold handleToggleRecording. rewrite Hrec, Hplay. cbn [negb andb].
    st_cases; (split; [|split; [reflexivity|split; [exact Hne|]]]);
      rewrite ?lookup_alter_ne by congruence;
      rewrite lookup_insert_ne by congruence; exact Hrc.
Qed.

(** X17.  When the silence timer fires, the request carries the whole
    transcript, keyword included, and the detected keyword as model (none
    if none was detected); the current recognizer is told to stop, every
    other recognizer is left alone, and [isRecording] stays as it is until
    an [end] event comes. *)
Theorem silence_sends_the_transcript s t cb :
  timeouts s !! t = Some cb ->
  exists s',
    step (timer_fires t) s = Some s' /\
    fetches s' !! fresh s =
      Some {| body := requestBody (interimTranscript cb)
                        (detectModel (interimTranscript cb));
              request_model := timeout_model cb |} /\
    timeouts s' = delete t (timeouts s) /\
    isRecording s' = isRecording s /\ isPlaying s' = isPlaying s /\
    (forall r rc,
       recognizers s !! r = Some rc ->
       recognizers s' !! r =
         Some (if bool_decide (recognitionRef s = Some r) then stop rc else rc)).
Proof.
  intros Ht. eexists. split; [unfold step; rewrite Ht; reflexivity|].
  split.
  { unfold silenceElapsed.
    change (fetches (setTranscript "" ?x)) with (fetches x).
    rewrite sendToBackend_fetches. apply lookup_insert_eq. }
  st_cases; (split; [reflexivity|]; split; [reflexivity|]; split; [reflexivity|]);
    intros r rc Hrc; case_bool_decide; simplify_eq;
    rewrite ?lookup_alter_eq, ?lookup_alter_ne by congruence;
    rewrite Hrc; reflexivity.
Qed.

(** X18.  The [end] event of any recognizer, the current one or one that
    was replaced, clears [isRecording] and cancels the pending silence
    timer, while every other recognizer is left as it is: one that is still
    listening goes on listening with [isRecording] clear. *)
Theorem any_end_event_clears_recording s r s' :
  reachable s -> step (speech_end r) s = Some s' ->
  isRecording s' = false /\ timeouts s' = ∅ /\
  (exists rc, recognizers s' !! r = Some rc /\ status rc = ended) /\
  (forall r' rc, r' <> r -> recognizers s !! r' = Some rc ->
                 recognizers s' !! r' = Some rc) /\
  recognitionRef s' = recognitionRef s.
Proof.
  intros Hreach Hstep.
  pose proof (owned_timer_cleared s (reachable_timer_owned s Hreach)) as Hclear.
  st_inv Hstep; st_simpl; rewrite Hclear;
    (split; [reflexivity|]; split; [reflexivity|]; split;
     [eexists; split; [apply lookup_insert_eq | reflexivity]|]; split;
     [|reflexivity]);
    intros r' rc Hne Hrc; rewrite lookup_insert_ne by congruence; exact Hrc.
Qed.

End TurnMore.

(** ** The further properties on concrete turns *)
Section MoreExamples.

Import Dispatcher Controller Page.

Lemma response_is_complete_witness :
  In (res_status_json 200
        (toJson {| data := "SUQzBAAAAAAA"; contentType := "audio/mp3";
                   Dispatcher.model := "mistral" |}))
     (fst (handle answering_send answering_tts
             (JObj [("message", JStr "mistral hello"); ("model", JStr "mistral")])))
  /\
  snd (handle answering_send answering_tts
         (JObj [("message", JStr "mistral hello"); ("model", JStr "mistral")]))
  = inr tt.
Proof.
  assert (Hin : In (res_status_json 200
                      (toJson {| data := "SUQzBAAAAAAA"; contentType := "audio/mp3";
                                 Dispatcher.model := "mistral" |}))
                   (fst (handle answering_send answering_tts
                           (JObj [("message", JStr "mistral hello");
                                  ("model", JStr "mistral")])))).
  { rewrite handle_unfold. simpl. auto 10. }
  split; [exact Hin|].
  destruct (response_is_complete answering_send answering_tts _ _ _ Hin)
    as (? & ? & ? & ? & ? & _ & _ & _ & _ & _ & _ & _ & Hres).
  exact Hres.
Defined.

Lemma voice_follows_backend_witness :
  route "local llama" "hi" = Some (Ollama_invoke "llama2" "hi") /\
  (voice "local llama" = fable <->
   exists ollamaModel, Ollama_invoke "llama2" "hi" = Ollama_invoke ollamaModel "hi").
Proof.
  split; [reflexivity|].
  exact (proj1 (voice_follows_backend "local llama" "hi" _ eq_refl)).
Defined.

Lemma requests_in_flight_reach_a_backend_witness :
  reachable (after [click_toggle; speech_result 1 0 ["perplexity what is new"];
                    timer_fires 2]) /\
  fetches (after [click_toggle; speech_result 1 0 ["perplexity what is new"];
                  timer_fires 2]) !! 3
  = Some {| body := JObj [("message", JStr "perplexity what is new");
                          ("model", JStr "perplexity")];
            request_model := "" |} /\
  acceptable {| body := JObj [("message", JStr "perplexity what is new");
                              ("model", JStr "perplexity")];
                request_model := "" |}.
Proof.
  assert (Hreach : reachable (after [click_toggle;
                                     speech_result 1 0 ["perplexity what is new"];
                                     timer_fires 2])).
  { exists [click_toggle; speech_result 1 0 ["perplexity what is new"];
            timer_fires 2]. vm_compute. reflexivity. }
  assert (Hq : fetches (after [click_toggle;
                               speech_result 1 0 ["perplexity what is new"];
                               timer_fires 2]) !! 3
               = Some {| body := JObj [("message", JStr "perplexity what is new");
                                       ("model", JStr "perplexity")];
                         request_model := "" |})
    by (vm_compute; reflexivity).
  split; [exact Hreach|]. split; [exact Hq|].
  exact (proj1 (requests_in_flight_reach_a_backend _ 3 _ Hreach Hq)).
Defined.

Lemma bubble_click_asks_about_the_model_witness :
  "local mistral" ∈ bubbles /\
  exists s',
    step (click_bubble "local mistral") init = Some s' /\
    model s' = "local mistral" /\
    buildPrompt "Use local mistral model"
    = SYSTEM_PREFIX +:+ "local mistral model".
Proof.
  assert (Hm : "local mistral" ∈ bubbles)
    by (apply list_elem_of_In; simpl; auto 10).
  split; [exact Hm|].
  destruct (bubble_click_asks_about_the_model init "local mistral" Hm)
    as (s' & Hstep & _ & Hmodel & _ & _ & Hprompt).
  exists s'. split; [exact Hstep|]. split; [exact Hmodel | exact Hprompt].
Defined.

Lemma each_result_restarts_the_timer_witness :
  reachable (after [click_toggle; speech_result 1 0 ["tell"]]) /\
  step (speech_result 1 0 ["tell"; " me"])
       (after [click_toggle; speech_result 1 0 ["tell"]])
  = Some (after [click_toggle; speech_result 1 0 ["tell"];
                 speech_result 1 0 ["tell"; " me"]]) /\
  transcript (after [click_toggle; speech_result 1 0 ["tell"];
                     speech_result 1 0 ["tell"; " me"]]) = "tell me" /\
  step (timer_fires 2)
       (after [click_toggle; speech_result 1 0 ["tell"];
               speech_result 1 0 ["tell"; " me"]]) = None.
Proof.
  assert (Hreach : reachable (after [click_toggle; speech_result 1 0 ["tell"]])).
  { exists [click_toggle; speech_result 1 0 ["tell"]]. vm_compute. reflexivity. }
  assert (Hstep : step (speech_result 1 0 ["tell"; " me"])
                    (after [click_toggle; speech_result 1 0 ["tell"]])
                  = Some (after [click_toggle; speech_result 1 0 ["tell"];
                                 speech_result 1 0 ["tell"; " me"]]))
    by (vm_compute; reflexivity).
  split; [exact Hreach|]. split; [exact Hstep|].
  destruct (each_result_restarts_the_timer _ _ _ _ _ Hreach Hstep)
    as (env & _ & _ & Htr & Hold & _).
  split; [exact Htr|]. apply Hold. vm_compute. discriminate.
Defined.

Lemma playing_flag_has_an_audio_witness :
  reachable (after [click_bubble "gpt"; fetch_settles 1 audio_reply]) /\
  isPlaying (after [click_bubble "gpt"; fetch_settles 1 audio_reply]) = true /\
  exists a au,
    audios (after [click_bubble "gpt"; fetch_settles 1 audio_reply]) !! a = Some au.
Proof.
  assert (Hreach : reachable (after [click_bubble "gpt";
                                     fetch_settles 1 audio_reply])).
  { exists [click_bubble "gpt"; fetch_settles 1 audio_reply].
    vm_compute. reflexivity. }
  assert (Hplay : isPlaying (after [click_bubble "gpt";
                                    fetch_settles 1 audio_reply]) = true)
    by (vm_compute; reflexivity).
  split; [exact Hreach|]. split; [exact Hplay|].
  exact (playing_flag_has_an_audio _ Hreach Hplay).
Defined.

Lemma model_shown_after_silence_witness :
  timeouts (after [click_toggle; speech_result 1 0 ["tell me a joke"]]) !! 2
  = Some {| interimTranscript := "tell me a joke"; timeout_model := "" |} /\
  step (timer_fires 2) (after [click_toggle; speech_result 1 0 ["tell me a joke"]])
  = Some (after [click_toggle; speech_result 1 0 ["tell me a joke"];
                 timer_fires 2]) /\
  model (after [click_toggle; speech_result 1 0 ["tell me a joke"];
                timer_fires 2]) = "gpt-3.5".
Proof.
  assert (Ht : timeouts (after [click_toggle;
                                speech_result 1 0 ["tell me a joke"]]) !! 2
               = Some {| interimTranscript := "tell me a joke";
                         timeout_model := "" |}) by (vm_compute; reflexivity).
  assert (Hstep : step (timer_fires 2)
                    (after [click_toggle; speech_result 1 0 ["tell me a joke"]])
                  = Some (after [click_toggle;
                                 speech_result 1 0 ["tell me a joke"];
                                 timer_fires 2])) by (vm_compute; reflexivity).
  split; [exact Ht|]. split; [exact Hstep|].
  exact (proj1 (model_shown_after_silence _ _ _ _ Ht Hstep)).
Defined.

Lemma dispatcher_reply_plays_unless_empty_witness :
  In (res_status_json 200
        (toJson {| data := "SUQzBAAAAAAA"; contentType := "audio/mp3";
                   Dispatcher.model := "gpt" |}))
     (fst (handle answering_send answering_tts (JObj [("message", JStr "hello")])))
  /\
  exists r,
    toJson {| data := "SUQzBAAAAAAA"; contentType := "audio/mp3";
              Dispatcher.model := "gpt" |} = toJson r /\
    plays (responded 200 (Some (replyOf r))) = truthy (data r).
Proof.
  assert (Hin : In (res_status_json 200
                      (toJson {| data := "SUQzBAAAAAAA"; contentType := "audio/mp3";
                                 Dispatcher.model := "gpt" |}))
                   (fst (handle answering_send answering_tts
                           (JObj [("message", JStr "hello")])))).
  { rewrite handle_unfold. simpl. auto 10. }
  split; [exact Hin|].
  destruct (dispatcher_reply_plays_unless_empty _ _ _ _ _ Hin)
    as (r & Hb & _ & Hplays & _).
  exists r. split; [exact Hb | exact Hplays].
Defined.

Lemma playable_reply_then_playback_end_witness :
  fetches (after [click_bubble "gpt4"]) !! 1
  = Some {| body := JObj [("message", JStr "Use gpt4 model"); ("model", JStr "gpt4")];
            request_model := "" |} /\
  plays audio_reply = true /\
  exists s1 s2,
    step (fetch_settles 1 audio_reply) (after [click_bubble "gpt4"]) = Some s1 /\
    step (audio_ended 2) s1 = Some s2 /\
    isPlaying s2 = false /\ isRecording s2 = true /\ model s2 = "gpt".
Proof.
  assert (Hq : fetches (after [click_bubble "gpt4"]) !! 1
               = Some {| body := JObj [("message", JStr "Use gpt4 model");
                                       ("model", JStr "gpt4")];
                         request_model := "" |}) by (vm_compute; reflexivity).
  assert (Hp : plays audio_reply = true) by reflexivity.
  split; [exact Hq|]. split; [exact Hp|].
  destruct (playable_reply_then_playback_end _ 1 _ 200 _ Hq Hp)
    as (s1 & s2 & H1 & _ & _ & H2 & Hplay & Hrec & _ & _ & _ & Hmodel).
  exists s1, s2. split; [exact H1|]. split; [exact H2|].
  split; [exact Hplay|]. split; [exact Hrec | exact Hmodel].
Defined.

Lemma restart_leaves_recognizers_running_witness :
  reachable (after [click_bubble "gpt"; click_toggle; fetch_settles 1 audio_reply]) /\
  recognizers (after [click_bubble "gpt"; click_toggle;
                      fetch_settles 1 audio_reply]) !! 2
  = Some {| status := started; rec_model := "gpt" |} /\
  step (audio_ended 3)
       (after [click_bubble "gpt"; click_toggle; fetch_settles 1 audio_reply])
  = Some (after [click_bubble "gpt"; click_toggle; fetch_settles 1 audio_reply;
                 audio_ended 3]) /\
  recognizers (after [click_bubble "gpt"; click_toggle; fetch_settles 1 audio_reply;
                      audio_ended 3]) !! 2
  = Some {| status := started; rec_model := "gpt" |} /\
  recognizers (stopRecording
                 (after [click_bubble "gpt"; click_toggle;
                         fetch_settles 1 audio_reply; audio_ended 3])) !! 2
  = Some {| status := started; rec_model := "gpt" |}.
Proof.
  assert (Hreach : reachable (after [click_bubble "gpt"; click_toggle;
                                     fetch_settles 1 audio_reply])).
  { exists [click_bubble "gpt"; click_toggle; fetch_settles 1 audio_reply].
    vm_compute. reflexivity. }
  assert (Hrc : recognizers (after [click_bubble "gpt"; click_toggle;
                                    fetch_settles 1 audio_reply]) !! 2
                = Some {| status := started; rec_model := "gpt" |})
    by (vm_compute; reflexivity).
  assert (Hstep : step (audio_ended 3)
                    (after [click_bubble "gpt"; click_toggle;
                            fetch_settles 1 audio_reply])
                  = Some (after [click_bubble "gpt"; click_toggle;
                                 fetch_settles 1 audio_reply; audio_ended 3]))
    by (vm_compute; reflexivity).
  split; [exact Hreach|]. split; [exact Hrc|]. split; [exact Hstep|].
  destruct (restart_leaves_recognizers_running _ 2 _ Hreach Hrc) as [Hend _].
  destruct (Hend 3 _ Hstep) as (Hkept & _ & _ & Hstill).
  split; [exact Hkept | exact Hstill].
Defined.

Lemma silence_sends_the_transcript_witness :
  timeouts (after [click_toggle; speech_result 1 0 ["gpt4 explain entropy"]]) !! 2
  = Some {| interimTranscript := "gpt4 explain entropy"; timeout_model := "" |} /\
  exists s',
    step (timer_fires 2)
         (after [click_toggle; speech_result 1 0 ["gpt4 explain entropy"]])
    = Some s' /\
    fetches s' !! 3
    = Some {| body := JObj [("message", JStr "gpt4 explain entropy");
                            ("model", JStr "gpt4")];
              request_model := "" |}.
Proof.
  assert (Ht : timeouts (after [click_toggle;
                                speech_result 1 0 ["gpt4 explain entropy"]]) !! 2
               = Some {| interimTranscript := "gpt4 explain entropy";
                         timeout_model := "" |}) by (vm_compute; reflexivity).
  split; [exact Ht|].
  destruct (silence_sends_the_transcript _ 2 _ Ht) as (s' & Hstep & Hq & _).
  exists s'. split; [exact Hstep | exact Hq].
Defined.

Lemma any_end_event_clears_recording_witness :
  reachable (after [click_bubble "gpt"; click_toggle; fetch_settles 1 audio_reply;
                    audio_ended 3]) /\
  step (speech_end 2)
       (after [click_bubble "gpt"; click_toggle; fetch_settles 1 audio_reply;
               audio_ended 3])
  = Some (after [click_bubble "gpt"; click_toggle; fetch_settles 1 audio_reply;
                 audio_ended 3; speech_end 2]) /\
  isRecording (after [click_bubble "gpt"; click_toggle; fetch_settles 1 audio_reply;
                      audio_ended 3; speech_end 2]) = false /\
  recognizers (after [click_bubble "gpt"; click_toggle; fetch_settles 1 audio_reply;
                      audio_ended 3; speech_end 2]) !! 4
  = Some {| status := started; rec_model := "" |}.
Proof.
  assert (Hreach : reachable (after [click_bubble "gpt"; click_toggle;
                                     fetch_settles 1 audio_reply; audio_ended 3])).
  { exists [click_bubble "gpt"; click_toggle; fetch_settles 1 audio_reply;
            audio_ended 3]. vm_compute. reflexivity. }
  assert (Hstep : step (speech_end 2)
                    (after [click_bubble "gpt"; click_toggle;
                            fetch_settles 1 audio_reply; audio_ended 3])
                  = Some (after [click_bubble "gpt"; click_toggle;
                                 fetch_settles 1 audio_reply; audio_ended 3;
                                 speech_end 2])) by (vm_compute; reflexivity).
  split; [exact Hreach|]. split; [exact Hstep|].
  destruct (any_end_event_clears_recording _ 2 _ Hreach Hstep)
    as (Hrec & _ & _ & Hothers & _).
  split; [exact Hrec|]. apply Hothers; [discriminate|]. vm_compute. reflexivity.
Defined.

End MoreExamples.
